(** * Inter-brain connectivity (hypyp/analyses.py): a shallow embedding

    The development follows the Python module function by function:
    [simple_corr], [compute_sync], [compute_single_freq],
    [compute_freq_bands] and the synchrony metrics [_plv], [_coh],
    [_icoh], [_corrcoef], [_proj_power_corr].

    Numbers.  IEEE doubles are idealised as real numbers with one extra
    value [NaN]: arithmetic is exact, and every division by zero yields
    [NaN] (numpy gives [nan] for 0/0, which is the only division by zero
    that the phase and coherence metrics can perform, and an infinity for
    x/0 with x <> 0, which this model does not represent).  Overflow,
    underflow and rounding are not represented either: the statements
    about values are therefore equalities between two runs of the same
    formula, propagation of [NaN], and values at concrete samples of
    modulus one or zero.

    Arrays.  An array is its shape and its entries.  Selecting a row and
    concatenating are embedded for the ranks that an analytic signal of
    at most five axes produces; on arrays with more axes numpy goes on
    with sub-arrays where the embedding raises, so the statements that
    depend on these operations are about arrays of at most five axes.

    Effects.  Python raises exceptions and evaluates strictly from left to
    right.  A computation is a pair of the list of numerical operations it
    has carried out and either the exception raised or the value returned.

    Identity.  The module compares the requested metric with [is], which is
    object identity, so Python strings carry an identity. *)

From Stdlib Require Import Reals List String ZArith Lia Lra Bool Arith.
Import ListNotations.

Set Implicit Arguments.

Local Open Scope string_scope.
Local Open Scope list_scope.

(** ** Python strings and objects *)

Module Py.

(** A [str] object.  String literals that look like identifiers are
    interned by the compiler: there is one object per content.  A string
    built at run time (joined, read from a file or the command line) is a
    fresh object at its own address. *)
Inductive str : Type :=
| Interned (chars : string)
| Fresh (addr : nat) (chars : string).

Definition chars (s : str) : string :=
  match s with
  | Interned c => c
  | Fresh _ c => c
  end.

(** A literal of the source text. *)
Definition lit (c : string) : str := Interned c.

(** [a is b] *)
Definition is_ (a b : str) : bool :=
  match a, b with
  | Interned c, Interned d => String.eqb c d
  | Fresh p c, Fresh q d => Nat.eqb p q && String.eqb c d
  | _, _ => false
  end.

(** [a == b] *)
Definition eq_ (a b : str) : bool := String.eqb (chars a) (chars b).

(** [a + b] *)
Definition add (a b : string) : string := (a ++ b)%string.

(** The values the [frequencies] argument can take; [type(x) == list]
    and [type(x) == dict] only hold for the first two. *)
Inductive obj : Type :=
| PyList (items : list Z)
| PyDict (items : list (str * list Z))
| PyTuple (items : list Z)
| PyNone
| PyOther (type_name : string).

Definition type_is_list (o : obj) : bool :=
  match o with PyList _ => true | _ => false end.

Definition type_is_dict (o : obj) : bool :=
  match o with PyDict _ => true | _ => false end.

(** Exceptions, with the line of the [assert] for [AssertionError]. *)
Inductive exn : Type :=
| AssertionError (line : nat) (msg : string)
| NameError (msg : string)
| UnboundLocalError (var : string)
| IndexError
| ValueError (msg : string)
| AxisError
| External (msg : string).

End Py.

Import Py.

(** ** Computations: a trace of numerical work and an outcome *)

Inductive event : Type :=
| Decomposition (primitive : string)
| Pretransform
| Concatenation
| MetricEval
| Reduction.

Definition M (A : Type) : Type := (list event * (exn + A))%type.

Definition ret {A} (a : A) : M A := ([], inr a).

Definition raise {A} (e : exn) : M A := ([], inl e).

Definition tick (ev : event) : M unit := ([ev], inr tt).

Definition bind {A B} (m : M A) (k : A -> M B) : M B :=
  match m with
  | (l, inl e) => (l, inl e)
  | (l, inr a) => let (l', r) := k a in (l ++ l', r)
  end.

Notation "x <- m ;; k" := (bind m (fun x => k))
  (at level 61, m at next level, right associativity).
Notation "m ;;; k" := (bind m (fun _ => k))
  (at level 61, right associativity).

Definition outcome {A} (m : M A) : exn + A := snd m.

(** A collaborator that may fail, with a message: the call is recorded,
    then its failure propagates unmodified or its value is returned. *)
Definition call {A} (name : string) (r : string + A) : M A :=
  (tick (Decomposition name)) ;;;
  match r with
  | inl msg => raise (External msg)
  | inr a => ret a
  end.

(** [assert cond, msg] at a given line. *)
Definition assert_ (cond : bool) (line : nat) (msg : string) : M unit :=
  if cond then ret tt else raise (AssertionError line msg).

(** [[f(x) for x in l]] *)
Fixpoint for_ {A B} (l : list A) (f : A -> M B) : M (list B) :=
  match l with
  | [] => ret []
  | x :: l' => y <- f x ;; ys <- for_ l' f ;; ret (y :: ys)
  end.

Definition range (n : nat) : list nat := seq 0 n.

(** ** Numbers *)

Local Open Scope R_scope.

Inductive npfloat : Type :=
| Num (r : R)
| NaN.

Definition f_lift1 (op : R -> R) (a : npfloat) : npfloat :=
  match a with
  | Num x => Num (op x)
  | NaN => NaN
  end.

Definition f_lift2 (op : R -> R -> R) (a b : npfloat) : npfloat :=
  match a, b with
  | Num x, Num y => Num (op x y)
  | _, _ => NaN
  end.

Definition f_add := f_lift2 Rplus.
Definition f_sub := f_lift2 Rminus.
Definition f_mul := f_lift2 Rmult.
Definition f_abs := f_lift1 Rabs.

Definition f_div (a b : npfloat) : npfloat :=
  match a, b with
  | Num x, Num y => if Req_dec_T y 0 then NaN else Num (x / y)
  | _, _ => NaN
  end.

Definition f_sqrt (a : npfloat) : npfloat :=
  match a with
  | Num x => if Rlt_dec x 0 then NaN else Num (sqrt x)
  | NaN => NaN
  end.

(** [x ** 2] *)
Definition f_sq (a : npfloat) : npfloat := f_mul a a.

Definition is_nan (a : npfloat) : bool :=
  match a with
  | NaN => true
  | Num _ => false
  end.

Record complex : Type := Cx { re : npfloat; im : npfloat }.

Definition c_nan : complex := Cx NaN NaN.

Definition c_of (x y : R) : complex := Cx (Num x) (Num y).

(** [1j] *)
Definition j1 : complex := c_of 0 1.

Definition c_add (z w : complex) : complex :=
  Cx (f_add (re z) (re w)) (f_add (im z) (im w)).

Definition c_sub (z w : complex) : complex :=
  Cx (f_sub (re z) (re w)) (f_sub (im z) (im w)).

Definition c_mul (z w : complex) : complex :=
  Cx (f_sub (f_mul (re z) (re w)) (f_mul (im z) (im w)))
     (f_add (f_mul (re z) (im w)) (f_mul (im z) (re w))).

(** [np.abs] of a complex number. *)
Definition c_abs (z : complex) : npfloat :=
  f_sqrt (f_add (f_sq (re z)) (f_sq (im z))).

(** A complex number divided by a real one: numpy promotes the divisor to
    [r + 0j]; a [nan] anywhere spreads to both components. *)
Definition c_div_real (z : complex) (r : npfloat) : complex :=
  match re z, im z, r with
  | Num a, Num b, Num y =>
      if Req_dec_T y 0 then c_nan else c_of (a / y) (b / y)
  | _, _, _ => c_nan
  end.

(** A real number times a complex one, promoted in the same way. *)
Definition c_scale (r : npfloat) (z : complex) : complex :=
  match r, re z, im z with
  | Num y, Num a, Num b => c_of (y * a) (y * b)
  | _, _, _ => c_nan
  end.

(** [np.exp] *)
Definition c_exp (z : complex) : complex :=
  match re z, im z with
  | Num a, Num b => c_of (exp a * cos b) (exp a * sin b)
  | _, _ => c_nan
  end.

(** [np.sin] *)
Definition c_sin (z : complex) : complex :=
  match re z, im z with
  | Num a, Num b => c_of (sin a * cosh b) (cos a * sinh b)
  | _, _ => c_nan
  end.

(** [np.conjugate] *)
Definition c_conj (z : complex) : complex :=
  Cx (re z) (f_lift1 Ropp (im z)).

(** [np.imag] *)
Definition c_imag (z : complex) : npfloat := im z.

(** [np.angle], the argument in (-pi, pi]. *)
Definition r_angle (x y : R) : R :=
  if Rlt_dec 0 x then atan (y / x)
  else if Rlt_dec x 0 then
         (if Rlt_dec y 0 then atan (y / x) - PI else atan (y / x) + PI)
       else if Rlt_dec 0 y then PI / 2
            else if Rlt_dec y 0 then - (PI / 2) else 0.

Definition c_angle (z : complex) : npfloat :=
  match re z, im z with
  | Num a, Num b => Num (r_angle a b)
  | _, _ => NaN
  end.

(** [np.sum] of a 1-D complex array. *)
Definition c_sum (l : list complex) : complex :=
  fold_left c_add l (c_of 0 0).

Definition f_sum (l : list npfloat) : npfloat :=
  fold_left f_add l (Num 0).

(** [len(X)] as a number. *)
Definition f_len {A} (l : list A) : npfloat := Num (INR (List.length l)).

(** [np.nanmean] of a 1-D array: the mean of the entries that are not
    [nan]; [nan] when there is none. *)
Definition drop_nan (l : list npfloat) : list npfloat :=
  filter (fun a => negb (is_nan a)) l.

Definition nanmean (l : list npfloat) : npfloat :=
  f_div (f_sum (drop_nan l)) (f_len (drop_nan l)).

(** [np.nanstd], the population standard deviation of the entries that
    are not [nan]. *)
Definition nanstd (l : list npfloat) : npfloat :=
  let m := nanmean l in
  f_sqrt (nanmean (map (fun a => f_sq (f_abs (f_sub a m))) l)).

(** ** numpy arrays *)

(** An array is its shape and its entries.  Entries are only read at
    indices within the shape. *)
Record ndarray (V : Type) : Type := Nd { shape : list nat; item : list nat -> V }.

Class Dflt (V : Type) : Type := dflt : V.
#[global] Instance dflt_float : Dflt npfloat := NaN.
#[global] Instance dflt_complex : Dflt complex := c_nan.

Section Arrays.

Context {V : Type} `{Dflt V}.

Definition ndim (a : ndarray V) : nat := List.length (shape a).

(** [a.shape[k]] *)
Definition shape_at (a : ndarray V) (k : nat) : M nat :=
  match nth_error (shape a) k with
  | Some d => ret d
  | None => raise IndexError
  end.

(** [a[i]] *)
Definition np_sub (a : ndarray V) (i : nat) : ndarray V :=
  Nd (tl (shape a)) (fun idx => item a (i :: idx)).

Definition np_index0 (a : ndarray V) (i : nat) : M (ndarray V) :=
  match shape a with
  | d :: _ => if (i <? d)%nat then ret (np_sub a i) else raise IndexError
  | [] => raise IndexError
  end.

(** The sub-arrays that iterating over [a] yields. *)
Definition np_iter (a : ndarray V) : list (ndarray V) :=
  map (np_sub a) (range (hd 0%nat (shape a))).

Fixpoint in_bounds (idx sh : list nat) : bool :=
  match idx, sh with
  | [], _ => true
  | i :: idx', d :: sh' => (i <? d)%nat && in_bounds idx' sh'
  | _ :: _, [] => false
  end.

(** [a[i0, ..., ik, :]], the 1-D array along the last axis of an array
    with one more axis than indices given.  (With more axes numpy returns
    a sub-array of higher rank; the engine meets none on a signal of at
    most five axes, and the embedding raises there.) *)
Definition np_row (a : ndarray V) (idx : list nat) : M (list V) :=
  if in_bounds idx (shape a) && (ndim a =? S (List.length idx))%nat
  then ret (map (fun t => item a (idx ++ [t])) (range (last (shape a) 0%nat)))
  else raise IndexError.

(** [np.array([a0, a1, ...])] of arrays: they are stacked along a new
    leading axis and must agree in shape. *)
Definition stacked (a : ndarray V) (l : list (ndarray V)) : ndarray V :=
  Nd (List.length l :: shape a)
     (fun idx => match idx with
                 | i :: r => item (nth i l a) r
                 | [] => dflt
                 end).

Definition np_stack (l : list (ndarray V)) : M (ndarray V) :=
  match l with
  | [] => ret (Nd [0%nat] (fun _ => dflt))
  | a :: _ =>
      if forallb (fun b => if list_eq_dec Nat.eq_dec (shape a) (shape b)
                           then true else false) l
      then ret (stacked a l)
      else raise (ValueError "inhomogeneous shape")
  end.

(** [np.concatenate(arrays, axis=2)] of 3-D arrays: at each position of
    the first two axes, the rows of the arrays one after the other.
    (numpy also joins arrays of higher rank, which the epochs of a signal
    of at most five axes never are; the embedding raises there.) *)
Definition joined (l : list (ndarray V)) (c f : nat) : list V :=
  flat_map (fun b => map (fun u => item b [c; f; u]) (range (nth 2 (shape b) 0%nat))) l.

Definition concatenated (a : ndarray V) (l : list (ndarray V)) : ndarray V :=
  Nd [nth 0 (shape a) 0%nat; nth 1 (shape a) 0%nat;
      list_sum (map (fun b => nth 2 (shape b) 0%nat) l)]
     (fun idx => match idx with
                 | [c; f; t] => nth t (joined l c f) dflt
                 | _ => dflt
                 end).

Definition np_concatenate_axis2 (l : list (ndarray V)) : M (ndarray V) :=
  match l with
  | [] => raise (ValueError "need at least one array to concatenate")
  | a :: _ =>
      if (ndim a =? 3)%nat
      then tick Concatenation ;;; ret (concatenated a l)
      else raise AxisError
  end.

(** [np.moveaxis(a, [0], [3])] *)
Definition moved_0_3 (a : ndarray V) : ndarray V :=
  Nd (match shape a with
      | d0 :: d1 :: d2 :: d3 :: rest => d1 :: d2 :: d3 :: d0 :: rest
      | sh => sh
      end)
     (fun idx => match idx with
                 | i1 :: i2 :: i3 :: i0 :: r => item a (i0 :: i1 :: i2 :: i3 :: r)
                 | _ => dflt
                 end).

Definition np_moveaxis_0_3 (a : ndarray V) : M (ndarray V) :=
  if (4 <=? ndim a)%nat then ret (moved_0_3 a) else raise AxisError.

End Arrays.

(** Elementwise application. *)
Definition np_map {V W} (f : V -> W) (a : ndarray V) : ndarray W :=
  Nd (shape a) (fun idx => f (item a idx)).

(** A pre-transform of the whole tensor is one numerical operation. *)
Definition pre {V W} (f : V -> W) (a : ndarray V) : M (ndarray W) :=
  tick Pretransform ;;; ret (np_map f a).

(** [np.array] of nested lists of numbers.  The shape is discovered from
    the first element of each level, so it stops at an empty list. *)
Definition infer {A} (sh : A -> list nat) (l : list A) : list nat :=
  List.length l :: match l with
                   | [] => []
                   | x :: _ => sh x
                   end.

Definition look {A} (get : A -> list nat -> npfloat) (l : list A) (idx : list nat)
  : npfloat :=
  match idx with
  | [] => NaN
  | i :: r => match nth_error l i with
              | Some x => get x r
              | None => NaN
              end
  end.

Definition shape1 : list npfloat -> list nat := infer (fun _ => []).
Definition shape2 : list (list npfloat) -> list nat := infer shape1.
Definition shape3 : list (list (list npfloat)) -> list nat := infer shape2.
Definition shape4 : list (list (list (list npfloat))) -> list nat := infer shape3.

Definition get1 : list npfloat -> list nat -> npfloat := look (fun v _ => v).
Definition get2 : list (list npfloat) -> list nat -> npfloat := look get1.
Definition get3 : list (list (list npfloat)) -> list nat -> npfloat := look get2.
Definition get4 : list (list (list (list npfloat))) -> list nat -> npfloat := look get3.

Definition np_array3 (l : list (list (list npfloat))) : ndarray npfloat :=
  Nd (shape3 l) (get3 l).

Definition np_array4 (l : list (list (list (list npfloat)))) : ndarray npfloat :=
  Nd (shape4 l) (get4 l).

(** [np.nanmean(a, axis=1)] *)
Definition np_nanmean_axis1 (a : ndarray npfloat) : M (ndarray npfloat) :=
  match shape a with
  | d0 :: d1 :: rest =>
      tick Reduction ;;;
      ret (Nd (d0 :: rest)
              (fun idx => match idx with
                          | i :: r => nanmean (map (fun e => item a (i :: e :: r)) (range d1))
                          | [] => NaN
                          end))
  | _ => raise AxisError
  end.

(** ** Synchrony metrics *)

(** An elementwise operation on two 1-D arrays of the same length. *)
Definition vec2 {A B C} (f : A -> B -> C) (X : list A) (Y : list B) : list C :=
  map (fun p => f (fst p) (snd p)) (combine X Y).

(** Phase Locking Value:
    [np.abs(np.sum(np.exp(1j * (X - Y)))) / len(X)] *)
Definition _plv (X Y : list complex) : npfloat :=
  f_div (c_abs (c_sum (map c_exp (map (c_mul j1) (vec2 c_sub X Y))))) (f_len X).

(** Coherence *)
Definition _coh (X Y : list complex) : npfloat :=
  let X_phase := vec2 c_div_real X (map c_abs X) in
  let Y_phase := vec2 c_div_real Y (map c_abs Y) in
  let Sxy := vec2 c_scale (vec2 f_mul (map c_abs X) (map c_abs Y))
                  (map c_exp (map (c_mul j1) (vec2 c_sub X_phase Y_phase))) in
  let Sxx := map f_sq (map c_abs X) in
  let Syy := map f_sq (map c_abs Y) in
  let coh := map c_abs (vec2 c_div_real Sxy (map f_sqrt (vec2 f_mul Sxx Syy))) in
  nanmean coh.

(** Imaginary coherence *)
Definition _icoh (X Y : list complex) : npfloat :=
  let X_phase := vec2 c_div_real X (map c_abs X) in
  let Y_phase := vec2 c_div_real Y (map c_abs Y) in
  let iSxy := vec2 c_scale (vec2 f_mul (map c_abs X) (map c_abs Y))
                   (map c_sin (vec2 c_sub X_phase Y_phase)) in
  let Sxx := map f_sq (map c_abs X) in
  let Syy := map f_sq (map c_abs Y) in
  let icoh := map c_abs (vec2 c_div_real iSxy (map f_sqrt (vec2 f_mul Sxx Syy))) in
  nanmean icoh.

(** Projected power correlation *)
Definition _proj_power_corr (X Y : list complex) : npfloat :=
  let X_abs := map c_abs X in
  let Y_abs := map c_abs Y in
  let X_unit := vec2 c_div_real X X_abs in
  let Y_unit := vec2 c_div_real Y Y_abs in
  let X_abs_norm := map (fun a => f_div (f_sub a (nanmean X_abs)) (nanstd X_abs)) X_abs in
  let Y_abs_norm := map (fun a => f_div (f_sub a (nanmean Y_abs)) (nanstd Y_abs)) Y_abs in
  let X_ := map (fun a => f_div a (nanstd X_abs)) X_abs in
  let Y_ := map (fun a => f_div a (nanstd Y_abs)) Y_abs in
  let X_z := vec2 c_scale X_ X_unit in
  let Y_z := vec2 c_scale Y_ Y_unit in
  let projX := map c_imag (vec2 c_mul X_z (map c_conj Y_unit)) in
  let projY := map c_imag (vec2 c_mul Y_z (map c_conj X_unit)) in
  let projX_norm := map (fun a => f_div (f_sub a (nanmean projX)) (nanstd projX)) projX in
  let projY_norm := map (fun a => f_div (f_sub a (nanmean projY)) (nanstd projY)) projY in
  f_div (f_add (nanmean (vec2 f_mul projX_norm Y_abs_norm))
               (nanmean (vec2 f_mul projY_norm X_abs_norm)))
        (Num 2).

(** ** The synchrony engine *)

Section Engine.

(** Library statistics used as they are: entry [[0][1]] of
    [np.corrcoef([X, Y])] and astropy's [circcorrcoef]. *)
Variable np_corrcoef01 : list npfloat -> list npfloat -> npfloat.
Variable circcorrcoef : list npfloat -> list npfloat -> npfloat.

(** just pearson correlation coefficient *)
Definition _corrcoef (X Y : list npfloat) : npfloat := np_corrcoef01 X Y.

(** The comprehension of the per-epoch branches:
    [[[[[metric(values[0, epoch, ch_i, freq, :], values[1, epoch, ch_j, freq, :])
         for ch_i in range(n_ch)] for ch_j in range(n_ch)]
       for epoch in range(n_epoch)] for freq in range(n_freq)]]
    wrapped in [np.array]. *)
Definition per_epoch_grid {V} (metric : list V -> list V -> npfloat)
           (values : ndarray V) (n_freq n_epoch n_ch : nat) : M (ndarray npfloat) :=
  rows <- for_ (range n_freq) (fun freq =>
            for_ (range n_epoch) (fun epoch =>
              for_ (range n_ch) (fun ch_j =>
                for_ (range n_ch) (fun ch_i =>
                  X <- np_row values [0; epoch; ch_i; freq]%nat ;;
                  Y <- np_row values [1; epoch; ch_j; freq]%nat ;;
                  tick MetricEval ;;;
                  ret (metric X Y))))) ;;
  ret (np_array4 rows).

(** [np.array([np.concatenate(values[n], axis=2) for n in range(2)])] *)
Definition strands_of {V} `{Dflt V} (values : ndarray V) : M (ndarray V) :=
  subjects <- for_ (range 2) (fun n =>
                v <- np_index0 values n ;;
                np_concatenate_axis2 (np_iter v)) ;;
  np_stack subjects.

(** The comprehension of the concatenated branches:
    [[[[metric(strands[0, ch_i, freq, :], strands[1, ch_j, freq, :])
        for ch_i in range(n_ch)] for ch_j in range(n_ch)]
      for freq in range(n_freq)]] wrapped in [np.array]. *)
Definition concat_grid {V} (metric : list V -> list V -> npfloat)
           (strands : ndarray V) (n_freq n_ch : nat) : M (ndarray npfloat) :=
  rows <- for_ (range n_freq) (fun freq =>
            for_ (range n_ch) (fun ch_j =>
              for_ (range n_ch) (fun ch_i =>
                X <- np_row strands [0; ch_i; freq]%nat ;;
                Y <- np_row strands [1; ch_j; freq]%nat ;;
                tick MetricEval ;;;
                ret (metric X Y)))) ;;
  ret (np_array3 rows).

(** [complex_signal / np.abs(complex_signal)] *)
Definition unit_phasor (z : complex) : complex := c_div_real z (c_abs z).

(** [np.abs(complex_signal)**2] *)
Definition power_of (z : complex) : npfloat := f_sq (c_abs z).

Definition unsupported (mode : str) : exn :=
  NameError (add (add "Sychrony metric " (chars mode)) " not supported.").

(** Synchrony from analytic signals.  Each branch of the source is its
    pre-transform followed by one of the two comprehensions above. *)
Definition compute_sync (complex_signal : ndarray complex) (mode : str)
           (epoch_wise time_resolved : bool) : M (ndarray npfloat) :=
  n_epoch <- shape_at complex_signal 1 ;;
  n_ch <- shape_at complex_signal 2 ;;
  n_freq <- shape_at complex_signal 3 ;;
  n_samp <- shape_at complex_signal 4 ;;
  if epoch_wise then
    result <-
      (if is_ mode (lit "envelope") then
         values <- pre c_abs complex_signal ;;
         per_epoch_grid _corrcoef values n_freq n_epoch n_ch
       else if is_ mode (lit "power") then
         values <- pre power_of complex_signal ;;
         per_epoch_grid _corrcoef values n_freq n_epoch n_ch
       else if is_ mode (lit "plv") then
         values <- pre unit_phasor complex_signal ;;
         per_epoch_grid _plv values n_freq n_epoch n_ch
       else if is_ mode (lit "ccorr") then
         values <- pre c_angle complex_signal ;;
         per_epoch_grid circcorrcoef values n_freq n_epoch n_ch
       else if is_ mode (lit "proj") then
         per_epoch_grid _proj_power_corr complex_signal n_freq n_epoch n_ch
       else if is_ mode (lit "imagcoh") then
         per_epoch_grid _icoh complex_signal n_freq n_epoch n_ch
       else if is_ mode (lit "coh") then
         per_epoch_grid _coh complex_signal n_freq n_epoch n_ch
       else raise (unsupported mode)) ;;
    if time_resolved then np_nanmean_axis1 result else ret result
  else
    if is_ mode (lit "envelope") then
      values <- pre c_abs complex_signal ;;
      strands <- strands_of values ;;
      concat_grid _corrcoef strands n_freq n_ch
    else if is_ mode (lit "power") then
      values <- pre power_of complex_signal ;;
      strands <- strands_of values ;;
      concat_grid _corrcoef strands n_freq n_ch
    else if is_ mode (lit "plv") then
      values <- pre unit_phasor complex_signal ;;
      strands <- strands_of values ;;
      concat_grid _plv strands n_freq n_ch
    else if is_ mode (lit "ccorr") then
      values <- pre c_angle complex_signal ;;
      strands <- strands_of values ;;
      concat_grid circcorrcoef strands n_freq n_ch
    else if is_ mode (lit "proj") then
      strands <- strands_of complex_signal ;;
      concat_grid _proj_power_corr strands n_freq n_ch
    else if is_ mode (lit "imagcoh") then
      strands <- strands_of complex_signal ;;
      concat_grid _icoh strands n_freq n_ch
    else if is_ mode (lit "coh") then
      strands <- strands_of complex_signal ;;
      concat_grid _coh strands n_freq n_ch
    else raise (unsupported mode).

End Engine.

(** ** The analytic-signal builder and the facade *)

(** [np.arange(lo, hi, 1)] on integers. *)
Definition np_arange (lo hi : Z) : list Z :=
  map (fun k => (lo + Z.of_nat k)%Z) (range (Z.to_nat (hi - lo))).

(** [l[k]] on a Python list. *)
Definition py_index {A} (l : list A) (k : nat) : M A :=
  match nth_error l k with
  | Some x => ret x
  | None => raise IndexError
  end.

Section Builder.

(** The collaborators, by contract only.
    [tfr_array_multitaper x sfreq freqs] stands for
    [mne.time_frequency.tfr_array_multitaper(x, sfreq=sfreq, freqs=freqs,
     n_cycles=4, zero_mean=False, use_fft=True, decim=1, output='complex')],
    [filter_data x sfreq lo hi] for [mne.filter.filter_data(x, sfreq, lo, hi,
    verbose=False)] and [hilbert] for [scipy.signal.hilbert]. *)
Variable tfr_array_multitaper :
  ndarray npfloat -> nat -> list Z -> string + ndarray complex.
Variable filter_data :
  ndarray npfloat -> nat -> Z -> Z -> string + ndarray npfloat.
Variable hilbert : ndarray npfloat -> string + ndarray complex.

(** The two subjects' recordings, [data[0]] and [data[1]]. *)
Definition dyad : Type := (ndarray npfloat * ndarray npfloat)%type.

Definition subject (data : dyad) (n : nat) : ndarray npfloat :=
  match n with
  | O => fst data
  | _ => snd data
  end.

(** Analytic signal per frequency bin, by the multitaper method. *)
Definition compute_single_freq (data : dyad) (freq_range : list Z)
  : M (ndarray complex) :=
  n_samp <- shape_at (subject data 0) 2 ;;
  per_subject <- for_ (range 2) (fun s =>
                   lo <- py_index freq_range 0 ;;
                   hi <- py_index freq_range 1 ;;
                   call "tfr_array_multitaper"
                        (tfr_array_multitaper (subject data s) n_samp (np_arange lo hi))) ;;
  np_stack per_subject.

(** The body of the loop over [freq_bands.values()]: filter each
    subject, stack the two, take the Hilbert transform. *)
Definition band_signal (data : ndarray npfloat) (n_samp : nat) (freq_band : list Z)
  : M (ndarray complex) :=
  per_subject <- for_ (range 2) (fun s =>
                   x <- np_index0 data s ;;
                   lo <- py_index freq_band 0 ;;
                   hi <- py_index freq_band 1 ;;
                   call "filter_data" (filter_data x n_samp lo hi)) ;;
  filtered <- np_stack per_subject ;;
  call "hilbert" (hilbert filtered).

(** Analytic signal per frequency band, by filtering and Hilbert
    transform.  The dict is the list of its items in iteration order. *)
Definition compute_freq_bands (data : dyad) (freq_bands : list (str * list Z))
  : M (ndarray complex) :=
  e0 <- shape_at (subject data 0) 0 ;;
  e1 <- shape_at (subject data 1) 0 ;;
  assert_ (e0 =? e1)%nat 250 "" ;;;
  n_epoch <- shape_at (subject data 0) 0 ;;
  n_ch <- shape_at (subject data 0) 1 ;;
  n_samp <- shape_at (subject data 0) 2 ;;
  data' <- np_stack [subject data 0; subject data 1] ;;
  complex_signal <- for_ (map snd freq_bands) (band_signal data' n_samp) ;;
  stacked <- np_stack complex_signal ;;
  complex_signal' <- np_moveaxis_0_3 stacked ;;
  assert_ (if list_eq_dec Nat.eq_dec (shape complex_signal')
                          [2; n_epoch; n_ch; List.length freq_bands; n_samp]%nat
           then true else false) 266 "" ;;;
  ret complex_signal'.

Variable np_corrcoef01 : list npfloat -> list npfloat -> npfloat.
Variable circcorrcoef : list npfloat -> list npfloat -> npfloat.

(** The facade.  [values] is bound by the branch for
    [type(frequencies) == list] or by the one for
    [type(frequencies) == dict]; there is no [else], so for any other
    value the local stays unbound and reading it raises. *)
Definition simple_corr (data : dyad) (frequencies : obj) (mode : str)
           (epoch_wise time_resolved : bool) : M (ndarray npfloat) :=
  e0 <- shape_at (subject data 0) 0 ;;
  e1 <- shape_at (subject data 1) 0 ;;
  assert_ (e0 =? e1)%nat 59 "Two streams much have the same lengths." ;;;
  values <- match frequencies with
            | PyList l => v <- compute_single_freq data l ;; ret (Some v)
            | PyDict d => v <- compute_freq_bands data d ;; ret (Some v)
            | _ => ret None
            end ;;
  match values with
  | Some v => compute_sync np_corrcoef01 circcorrcoef v mode epoch_wise time_resolved
  | None => raise (UnboundLocalError "values")
  end.

End Builder.

(** ** Vocabulary of the statements *)

(** [returns m a]: the computation [m] raises nothing and yields [a]. *)
Definition returns {A} (m : M A) (a : A) : Prop :=
  exists lg, m = (lg, inr a).

(** The value of [a[i0, ..., ik, :]]. *)
Definition row {V} (a : ndarray V) (idx : list nat) : list V :=
  map (fun t => item a (idx ++ [t])) (range (last (shape a) 0%nat)).

(** The nested lists that the per-epoch comprehension builds. *)
Definition grid4 {V} (metric : list V -> list V -> npfloat) (values : ndarray V)
           (n_freq n_epoch n_ch : nat) : list (list (list (list npfloat))) :=
  map (fun freq =>
    map (fun epoch =>
      map (fun ch_j =>
        map (fun ch_i =>
               metric (row values [0; epoch; ch_i; freq]%nat)
                      (row values [1; epoch; ch_j; freq]%nat))
            (range n_ch))
          (range n_ch))
        (range n_epoch))
      (range n_freq).

(** The nested lists that the concatenated comprehension builds. *)
Definition grid3 {V} (metric : list V -> list V -> npfloat) (strands : ndarray V)
           (n_freq n_ch : nat) : list (list (list npfloat)) :=
  map (fun freq =>
    map (fun ch_j =>
      map (fun ch_i =>
             metric (row strands [0; ch_i; freq]%nat)
                    (row strands [1; ch_j; freq]%nat))
          (range n_ch))
        (range n_ch))
      (range n_freq).

(** ** The seven metrics *)

Inductive metric_name : Type :=
| Envelope | Power | Plv | Ccorr | Proj | Imagcoh | Coh.

Definition literal (m : metric_name) : string :=
  match m with
  | Envelope => "envelope"
  | Power => "power"
  | Plv => "plv"
  | Ccorr => "ccorr"
  | Proj => "proj"
  | Imagcoh => "imagcoh"
  | Coh => "coh"
  end.

(** The characters of [mode] spell one of the seven metric names. *)
Definition in_metric_set (mode : str) : Prop :=
  exists m, chars mode = literal m.

(** [mode] is the very object that the literal of the source denotes. *)
Definition selects (mode : str) (m : metric_name) : Prop :=
  is_ mode (lit (literal m)) = true.

Section Selected.

Variable np_corrcoef01 : list npfloat -> list npfloat -> npfloat.
Variable circcorrcoef : list npfloat -> list npfloat -> npfloat.

(** The metric that a mode selects, on two raw complex sequences: the
    pre-transform of each sample, then the formula. *)
Definition apply_metric (m : metric_name) (X Y : list complex) : npfloat :=
  match m with
  | Envelope => _corrcoef np_corrcoef01 (map c_abs X) (map c_abs Y)
  | Power => _corrcoef np_corrcoef01 (map power_of X) (map power_of Y)
  | Plv => _plv (map unit_phasor X) (map unit_phasor Y)
  | Ccorr => circcorrcoef (map c_angle X) (map c_angle Y)
  | Proj => _proj_power_corr X Y
  | Imagcoh => _icoh X Y
  | Coh => _coh X Y
  end.

(** The array that the per-epoch branch of a mode assembles. *)
Definition per_epoch_array (m : metric_name) (cs : ndarray complex)
           (Fq E Ch : nat) : ndarray npfloat :=
  match m with
  | Envelope => np_array4 (grid4 (_corrcoef np_corrcoef01) (np_map c_abs cs) Fq E Ch)
  | Power => np_array4 (grid4 (_corrcoef np_corrcoef01) (np_map power_of cs) Fq E Ch)
  | Plv => np_array4 (grid4 _plv (np_map unit_phasor cs) Fq E Ch)
  | Ccorr => np_array4 (grid4 circcorrcoef (np_map c_angle cs) Fq E Ch)
  | Proj => np_array4 (grid4 _proj_power_corr cs Fq E Ch)
  | Imagcoh => np_array4 (grid4 _icoh cs Fq E Ch)
  | Coh => np_array4 (grid4 _coh cs Fq E Ch)
  end.

End Selected.

(** ** Concrete analytic signals *)

(** A well-formed analytic signal given by its samples. *)
Definition signal (E Ch Fq S : nat)
           (x : nat -> nat -> nat -> nat -> nat -> complex) : ndarray complex :=
  Nd [2; E; Ch; Fq; S]%nat
     (fun idx => match idx with
                 | [s; e; c; f; t] => x s e c f t
                 | _ => c_nan
                 end).

(** A statistic that is never reached by the modes used below. *)
Definition no_statistic (X Y : list npfloat) : npfloat := NaN.

(** One epoch, two channels, one frequency, one sample: subject 0 has
    samples [1] and [i] on its channels, subject 1 has [1] on both. *)
Definition two_channel_signal : ndarray complex :=
  signal 1 2 1 1 (fun s _ c _ _ =>
                    match s, c with
                    | O, S _ => c_of 0 1
                    | _, _ => c_of 1 0
                    end).

(** One epoch, one channel, one frequency, one sample: [x] for subject 0
    and [y] for subject 1. *)
Definition one_sample_signal (x y : complex) : ndarray complex :=
  signal 1 1 1 1 (fun s _ _ _ _ => match s with O => x | _ => y end).

(** [within lo hi v]: [v] is a number between [lo] and [hi]. *)
Definition within (lo hi : R) (v : npfloat) : Prop :=
  match v with
  | Num r => lo <= r <= hi
  | NaN => False
  end.

(** Following the specification's words: the phase locking value is the
    mean resultant length of the elementwise phase difference,
    [|sum_k e^(i (P_k - Q_k))| / n] for phase angles [P] and [Q]. *)
Definition mean_resultant_length (P Q : list npfloat) : npfloat :=
  f_div (c_abs (c_sum (map (fun theta => c_exp (c_mul j1 (Cx theta (Num 0))))
                           (vec2 f_sub P Q))))
        (f_len P).

(** Following the specification's words: coherence is the NaN-skipping
    mean over samples of [|A1 A2 e^(i dphi)| / sqrt(A1^2 A2^2)] with [A1],
    [A2] the amplitudes and [dphi] the phase difference of the samples. *)
Definition instantaneous_coherence (x y : complex) : npfloat :=
  let A1 := c_abs x in
  let A2 := c_abs y in
  let dphi := f_sub (c_angle x) (c_angle y) in
  f_div (c_abs (c_scale (f_mul A1 A2) (c_exp (c_mul j1 (Cx dphi (Num 0))))))
        (f_sqrt (f_mul (f_sq A1) (f_sq A2))).

Definition mean_coherence (X Y : list complex) : npfloat :=
  nanmean (vec2 instantaneous_coherence X Y).

(** ** Conditions and collaborators of the statements *)

(** The documented failure conditions, as the exceptions the module
    raises for them: the two epoch-count assertions, the [NameError] of
    the metric dispatch, and the shape assertion of the band path. *)
Definition InputMismatch (x : exn) : Prop :=
  exists msg, x = AssertionError 59 msg \/ x = AssertionError 250 msg.

Definition UnsupportedMetric (x : exn) : Prop :=
  exists msg, x = NameError msg.

Definition ShapeMismatch (x : exn) : Prop :=
  exists msg, x = AssertionError 266 msg.

(** [may_raise P m]: every exception that [m] can end with satisfies [P]. *)
Definition may_raise {A} (P : exn -> Prop) (m : M A) : Prop :=
  forall x, outcome m = inl x -> P x.

Definition not_assertion (x : exn) : Prop :=
  match x with
  | AssertionError _ _ => False
  | _ => True
  end.

(** A recording of the given shape with every sample equal to [v]. *)
Definition recording (E Ch S : nat) (v : R) : ndarray npfloat :=
  Nd [E; Ch; S]%nat (fun _ => Num v).

(** Collaborators that are out of service. *)
Definition tfr_down (x : ndarray npfloat) (sfreq : nat) (freqs : list Z)
  : string + ndarray complex := inl "unavailable".
Definition filter_down (x : ndarray npfloat) (sfreq : nat) (lo hi : Z)
  : string + ndarray npfloat := inl "unavailable".
Definition hilbert_down (x : ndarray npfloat) : string + ndarray complex :=
  inl "unavailable".

(** Collaborators that honour their shape contracts on trivial data: a
    decomposition that answers zero at every frequency, a filter that lets
    everything through, an analytic signal with no imaginary part. *)
Definition tfr_zero (x : ndarray npfloat) (sfreq : nat) (freqs : list Z)
  : string + ndarray complex :=
  inr (Nd [nth 0 (shape x) 0; nth 1 (shape x) 0; List.length freqs; nth 2 (shape x) 0]%nat
          (fun _ => c_of 0 0)).
Definition filter_all_pass (x : ndarray npfloat) (sfreq : nat) (lo hi : Z)
  : string + ndarray npfloat := inr x.
Definition hilbert_real (x : ndarray npfloat) : string + ndarray complex :=
  inr (np_map (fun v => Cx v (Num 0)) x).

(** ** The concatenated branch in closed form *)

(** The shape of what a call returns, or the exception it ends with. *)
Definition result_shape (m : M (ndarray npfloat)) : exn + list nat :=
  match outcome m with
  | inl e => inl e
  | inr r => inr (shape r)
  end.

(** Following the specification's words: for one subject, channel and
    frequency, all epochs concatenated along the time axis into one long
    sequence. *)
Definition long_sequence (cs : ndarray complex) (s c f : nat) : list complex :=
  flat_map (fun e => row cs [s; e; c; f]%nat) (range (nth 1 (shape cs) 0%nat)).

(** The array that [strands_of] builds: per subject, the epochs joined
    along time; then the two subjects stacked. *)
Definition strand {V} `{Dflt V} (values : ndarray V) (n : nat) : ndarray V :=
  concatenated (np_sub (np_sub values n) 0) (np_iter (np_sub values n)).

Definition strands {V} `{Dflt V} (values : ndarray V) : ndarray V :=
  stacked (strand values 0) [strand values 0; strand values 1].

Section SelectedConcatenated.

Variable np_corrcoef01 : list npfloat -> list npfloat -> npfloat.
Variable circcorrcoef : list npfloat -> list npfloat -> npfloat.

(** The array that the concatenated branch of a mode assembles. *)
Definition concatenated_array (m : metric_name) (cs : ndarray complex)
           (Fq Ch : nat) : ndarray npfloat :=
  match m with
  | Envelope => np_array3 (grid3 (_corrcoef np_corrcoef01) (strands (np_map c_abs cs)) Fq Ch)
  | Power => np_array3 (grid3 (_corrcoef np_corrcoef01) (strands (np_map power_of cs)) Fq Ch)
  | Plv => np_array3 (grid3 _plv (strands (np_map unit_phasor cs)) Fq Ch)
  | Ccorr => np_array3 (grid3 circcorrcoef (strands (np_map c_angle cs)) Fq Ch)
  | Proj => np_array3 (grid3 _proj_power_corr (strands cs) Fq Ch)
  | Imagcoh => np_array3 (grid3 _icoh (strands cs) Fq Ch)
  | Coh => np_array3 (grid3 _coh (strands cs) Fq Ch)
  end.

End SelectedConcatenated.

(** The array that [np.nanmean(a, axis=1)] returns for an array of at
    least two axes. *)
Definition nanmean_axis1 (a : ndarray npfloat) : ndarray npfloat :=
  Nd (hd 0%nat (shape a) :: tl (tl (shape a)))
     (fun idx => match idx with
                 | i :: r => nanmean (map (fun e => item a (i :: e :: r))
                                          (range (nth 1 (shape a) 0%nat)))
                 | [] => NaN
                 end).

(** ** The metrics instant by instant *)

(** What the body of [_coh] computes at one instant, from the two
    samples of that instant. *)
Definition coh_instant (x y : complex) : npfloat :=
  let X_phase := c_div_real x (c_abs x) in
  let Y_phase := c_div_real y (c_abs y) in
  let Sxy := c_scale (f_mul (c_abs x) (c_abs y))
                     (c_exp (c_mul j1 (c_sub X_phase Y_phase))) in
  let Sxx := f_sq (c_abs x) in
  let Syy := f_sq (c_abs y) in
  c_abs (c_div_real Sxy (f_sqrt (f_mul Sxx Syy))).

(** The same for [_icoh]. *)
Definition icoh_instant (x y : complex) : npfloat :=
  let X_phase := c_div_real x (c_abs x) in
  let Y_phase := c_div_real y (c_abs y) in
  let iSxy := c_scale (f_mul (c_abs x) (c_abs y))
                      (c_sin (c_sub X_phase Y_phase)) in
  let Sxx := f_sq (c_abs x) in
  let Syy := f_sq (c_abs y) in
  c_abs (c_div_real iSxy (f_sqrt (f_mul Sxx Syy))).

(** The work that a call has carried out. *)
Definition work {A} (m : M A) : list event := fst m.


(** The errors that numpy raises on arrays of the wrong size or rank. *)
Definition numpy_error (x : exn) : Prop :=
  match x with
  | IndexError | ValueError _ | AxisError => True
  | _ => False
  end.

(** [only_events P m]: every operation that [m] has carried out, whether
    it returned or raised, satisfies [P]. *)
Definition only_events {A} (P : event -> Prop) (m : M A) : Prop :=
  Forall P (work m).

(** Events that are not calls of a collaborator. *)
Definition in_house (ev : event) : Prop :=
  match ev with
  | Decomposition _ => False
  | _ => True
  end.

(** Events that are not calls of the collaborator of the given name. *)
Definition not_call_of (name : string) (ev : event) : Prop :=
  match ev with
  | Decomposition n => n <> name
  | _ => True
  end.

(** ** The NaN-skipping mean of the specification *)





(** Two epochs, one channel, one frequency, one sample: subject 0 has
    the samples [1] and [i] in its two epochs, subject 1 has [1] in both. *)
Definition two_epoch_signal : ndarray complex :=
  signal 2 1 1 1 (fun s e _ _ _ =>
                    match s, e with
                    | O, S _ => c_of 0 1
                    | _, _ => c_of 1 0
                    end).

(** * Properties *)

(** ** Reasoning about computations *)

Lemma returns_ret {A} (a : A) : returns (ret a) a.
Proof. exists []. reflexivity. Qed.

Lemma returns_tick (ev : event) : returns (tick ev) tt.
Proof. exists [ev]. reflexivity. Qed.

Lemma returns_bind {A B} (m : M A) (k : A -> M B) (a : A) (b : B) :
  returns m a -> returns (k a) b -> returns (bind m k) b.
Proof.
  intros [l1 ->] [l2 Hk]. exists (l1 ++ l2). simpl. rewrite Hk. reflexivity.
Qed.

Lemma returns_inj {A} (m : M A) (a b : A) :
  returns m a -> returns m b -> a = b.
Proof.
  intros [l1 H1] [l2 H2]. rewrite H1 in H2. congruence.
Qed.

Lemma returns_pre {V W} (f : V -> W) (a : ndarray V) :
  returns (pre f a) (np_map f a).
Proof. exists [Pretransform]. reflexivity. Qed.

(** A comprehension whose body always returns is the [map] of the values. *)
Lemma returns_for {A B} (f : A -> M B) (g : A -> B) (l : list A) :
  (forall x, In x l -> returns (f x) (g x)) ->
  returns (for_ l f) (map g l).
Proof.
  induction l as [|x l IH]; intros Hf; simpl.
  - apply returns_ret.
  - eapply returns_bind; [apply Hf; left; reflexivity|].
    eapply returns_bind; [apply IH; intros y Hy; apply Hf; right; exact Hy|].
    apply returns_ret.
Qed.

Lemma bind_ret {A B} (a : A) (k : A -> M B) : bind (ret a) k = k a.
Proof. unfold ret, bind. destruct (k a). reflexivity. Qed.

(** ** Rows and grids *)

Lemma np_row_returns {V} (a : ndarray V) (idx : list nat) :
  in_bounds idx (shape a) = true ->
  List.length (shape a) = S (List.length idx) ->
  returns (np_row a idx) (row a idx).
Proof.
  intros Hb Hn. unfold np_row, ndim. rewrite Hb, Hn, Nat.eqb_refl. simpl.
  apply returns_ret.
Qed.

Lemma in_range (n i : nat) : In i (range n) <-> (i < n)%nat.
Proof. unfold range. rewrite in_seq. lia. Qed.

Lemma nth_error_map_range {A} (g : nat -> A) (n i : nat) :
  (i < n)%nat -> nth_error (map g (range n)) i = Some (g i).
Proof.
  intros Hi. unfold range. rewrite nth_error_map.
  rewrite (nth_error_nth' (seq 0 n) 0%nat) by (rewrite length_seq; exact Hi).
  rewrite seq_nth by exact Hi. reflexivity.
Qed.

Lemma look_map_range {A} (get : A -> list nat -> npfloat) (g : nat -> A)
      (n i : nat) (r : list nat) :
  (i < n)%nat -> look get (map g (range n)) (i :: r) = get (g i) r.
Proof.
  intros Hi. unfold look. rewrite nth_error_map_range by exact Hi. reflexivity.
Qed.

Lemma infer_map_range {A} (sh : A -> list nat) (g : nat -> A) (n : nat) :
  (0 < n)%nat -> infer sh (map g (range n)) = n :: sh (g 0%nat).
Proof.
  intros Hn. unfold infer, range. rewrite length_map, length_seq.
  destruct n as [|n]; [lia|]. reflexivity.
Qed.

Lemma per_epoch_grid_returns {V} (metric : list V -> list V -> npfloat)
      (values : ndarray V) (E Ch Fq S : nat) :
  shape values = [2; E; Ch; Fq; S]%nat ->
  returns (per_epoch_grid metric values Fq E Ch)
          (np_array4 (grid4 metric values Fq E Ch)).
Proof.
  intros Hs. unfold per_epoch_grid, grid4.
  eapply returns_bind; [|apply returns_ret].
  apply returns_for; intros f Hf%in_range.
  apply returns_for; intros e He%in_range.
  apply returns_for; intros j Hj%in_range.
  apply returns_for; intros i Hi%in_range.
  assert (Hlt : forall a b, (a < b)%nat -> (a <? b)%nat = true)
    by (intros; apply Nat.ltb_lt; assumption).
  eapply returns_bind.
  { apply np_row_returns; rewrite Hs; simpl; [|reflexivity].
    rewrite !Hlt by assumption. reflexivity. }
  eapply returns_bind.
  { apply np_row_returns; rewrite Hs; simpl; [|reflexivity].
    rewrite !Hlt by assumption. reflexivity. }
  eapply returns_bind; [apply returns_tick|apply returns_ret].
Qed.

Lemma concat_grid_returns {V} (metric : list V -> list V -> npfloat)
      (strands : ndarray V) (Ch Fq T : nat) :
  shape strands = [2; Ch; Fq; T]%nat ->
  returns (concat_grid metric strands Fq Ch)
          (np_array3 (grid3 metric strands Fq Ch)).
Proof.
  intros Hs. unfold concat_grid, grid3.
  eapply returns_bind; [|apply returns_ret].
  apply returns_for; intros f Hf%in_range.
  apply returns_for; intros j Hj%in_range.
  apply returns_for; intros i Hi%in_range.
  assert (Hlt : forall a b, (a < b)%nat -> (a <? b)%nat = true)
    by (intros; apply Nat.ltb_lt; assumption).
  eapply returns_bind.
  { apply np_row_returns; rewrite Hs; simpl; [|reflexivity].
    rewrite !Hlt by assumption. reflexivity. }
  eapply returns_bind.
  { apply np_row_returns; rewrite Hs; simpl; [|reflexivity].
    rewrite !Hlt by assumption. reflexivity. }
  eapply returns_bind; [apply returns_tick|apply returns_ret].
Qed.

(** Entry [(f, e, a, b)] of the per-epoch array: the outer channel index
    [a] is the comprehension's [ch_j] and selects subject 1's channel, the
    inner index [b] is [ch_i] and selects subject 0's channel. *)
Lemma grid4_item {V} (metric : list V -> list V -> npfloat) (values : ndarray V)
      (Fq E Ch f e a b : nat) :
  (f < Fq)%nat -> (e < E)%nat -> (a < Ch)%nat -> (b < Ch)%nat ->
  item (np_array4 (grid4 metric values Fq E Ch)) [f; e; a; b]%nat
  = metric (row values [0; e; b; f]%nat) (row values [1; e; a; f]%nat).
Proof.
  intros Hf He Ha Hb. unfold np_array4, grid4, get4, get3, get2, get1. cbn [item].
  rewrite look_map_range by exact Hf.
  rewrite look_map_range by exact He.
  rewrite look_map_range by exact Ha.
  rewrite look_map_range by exact Hb.
  reflexivity.
Qed.

Lemma grid3_item {V} (metric : list V -> list V -> npfloat) (strands : ndarray V)
      (Fq Ch f a b : nat) :
  (f < Fq)%nat -> (a < Ch)%nat -> (b < Ch)%nat ->
  item (np_array3 (grid3 metric strands Fq Ch)) [f; a; b]%nat
  = metric (row strands [0; b; f]%nat) (row strands [1; a; f]%nat).
Proof.
  intros Hf Ha Hb. unfold np_array3, grid3, get3, get2, get1. cbn [item].
  rewrite look_map_range by exact Hf.
  rewrite look_map_range by exact Ha.
  rewrite look_map_range by exact Hb.
  reflexivity.
Qed.

Lemma grid4_shape {V} (metric : list V -> list V -> npfloat) (values : ndarray V)
      (Fq E Ch : nat) :
  (0 < Fq)%nat -> (0 < E)%nat -> (0 < Ch)%nat ->
  shape (np_array4 (grid4 metric values Fq E Ch)) = [Fq; E; Ch; Ch]%nat.
Proof.
  intros Hf He Hc. unfold np_array4, grid4, shape4, shape3, shape2, shape1.
  cbn [shape].
  rewrite infer_map_range by exact Hf.
  rewrite infer_map_range by exact He.
  rewrite infer_map_range by exact Hc.
  rewrite infer_map_range by exact Hc.
  reflexivity.
Qed.

Lemma grid3_shape {V} (metric : list V -> list V -> npfloat) (strands : ndarray V)
      (Fq Ch : nat) :
  (0 < Fq)%nat -> (0 < Ch)%nat ->
  shape (np_array3 (grid3 metric strands Fq Ch)) = [Fq; Ch; Ch]%nat.
Proof.
  intros Hf Hc. unfold np_array3, grid3, shape3, shape2, shape1.
  cbn [shape].
  rewrite infer_map_range by exact Hf.
  rewrite infer_map_range by exact Hc.
  rewrite infer_map_range by exact Hc.
  reflexivity.
Qed.

Lemma is_lit (mode : str) (c : string) :
  is_ mode (lit c) = true <-> mode = Interned c.
Proof.
  unfold lit. destruct mode as [d|p d]; simpl.
  - rewrite String.eqb_eq. split; congruence.
  - split; discriminate.
Qed.

Lemma row_np_map {V W} (f : V -> W) (a : ndarray V) (idx : list nat) :
  row (np_map f a) idx = map f (row a idx).
Proof. unfold row, np_map. simpl. rewrite map_map. reflexivity. Qed.

(** Reduces the identity tests between literals. *)
Ltac decide_is :=
  repeat match goal with
         | |- context [is_ ?a ?b] =>
             let v := eval vm_compute in (is_ a b) in
             change (is_ a b) with v
         end;
  cbv iota.

Lemma np_nanmean_axis1_returns (a : ndarray npfloat) (d0 d1 : nat) (rest : list nat) :
  shape a = d0 :: d1 :: rest ->
  returns (np_nanmean_axis1 a) (nanmean_axis1 a).
Proof.
  intros Hs. unfold np_nanmean_axis1, nanmean_axis1. rewrite Hs. cbn [hd tl nth].
  eapply returns_bind; [apply returns_tick|apply returns_ret].
Qed.

Section EngineFacts.

Variable np_corrcoef01 : list npfloat -> list npfloat -> npfloat.
Variable circcorrcoef : list npfloat -> list npfloat -> npfloat.

Lemma compute_sync_dims (cs : ndarray complex) (mode : str) (ew tr : bool)
      (E Ch Fq S : nat) (k : nat -> nat -> nat -> nat -> M (ndarray npfloat)) :
  shape cs = [2; E; Ch; Fq; S]%nat ->
  (n_epoch <- shape_at cs 1 ;; n_ch <- shape_at cs 2 ;;
   n_freq <- shape_at cs 3 ;; n_samp <- shape_at cs 4 ;;
   k n_epoch n_ch n_freq n_samp) = k E Ch Fq S.
Proof.
  intros Hs. unfold shape_at. rewrite Hs. cbn [nth_error].
  rewrite !bind_ret. reflexivity.
Qed.

(** The per-epoch branch of a supported mode assembles [per_epoch_array]
    and goes on with the reduction that [time_resolved] asks for. *)
Lemma per_epoch_continues (m : metric_name) (cs : ndarray complex)
      (E Ch Fq S : nat) (tr : bool) (result : ndarray npfloat) :
  shape cs = [2; E; Ch; Fq; S]%nat ->
  returns (if tr
           then np_nanmean_axis1 (per_epoch_array np_corrcoef01 circcorrcoef m cs Fq E Ch)
           else ret (per_epoch_array np_corrcoef01 circcorrcoef m cs Fq E Ch))
          result ->
  returns (compute_sync np_corrcoef01 circcorrcoef cs (Interned (literal m)) true tr)
          result.
Proof.
  intros Hs Hk. unfold compute_sync.
  rewrite (compute_sync_dims cs (Interned (literal m)) true tr _ Hs).
  cbv iota.
  apply returns_bind
    with (a := per_epoch_array np_corrcoef01 circcorrcoef m cs Fq E Ch);
    [|exact Hk].
  destruct m; cbn [literal]; decide_is; cbn [per_epoch_array];
    try (eapply returns_bind; [apply returns_pre|]);
    eapply per_epoch_grid_returns; exact Hs.
Qed.

Lemma per_epoch_returns (m : metric_name) (cs : ndarray complex)
      (E Ch Fq S : nat) :
  shape cs = [2; E; Ch; Fq; S]%nat ->
  returns (compute_sync np_corrcoef01 circcorrcoef cs (Interned (literal m)) true false)
          (per_epoch_array np_corrcoef01 circcorrcoef m cs Fq E Ch).
Proof.
  intros Hs. apply (per_epoch_continues m cs false Hs). apply returns_ret.
Qed.

Lemma per_epoch_array_item (m : metric_name) (cs : ndarray complex)
      (Fq E Ch f e a b : nat) :
  (f < Fq)%nat -> (e < E)%nat -> (a < Ch)%nat -> (b < Ch)%nat ->
  item (per_epoch_array np_corrcoef01 circcorrcoef m cs Fq E Ch) [f; e; a; b]%nat
  = apply_metric np_corrcoef01 circcorrcoef m (row cs [0; e; b; f]%nat) (row cs [1; e; a; f]%nat).
Proof.
  intros Hf He Ha Hb.
  destruct m; cbn [per_epoch_array apply_metric];
    rewrite grid4_item by assumption; rewrite ?row_np_map; reflexivity.
Qed.

Lemma per_epoch_array_shape (m : metric_name) (cs : ndarray complex)
      (Fq E Ch : nat) :
  (0 < Fq)%nat -> (0 < E)%nat -> (0 < Ch)%nat ->
  shape (per_epoch_array np_corrcoef01 circcorrcoef m cs Fq E Ch) = [Fq; E; Ch; Ch]%nat.
Proof.
  intros Hf He Hc. destruct m; cbn [per_epoch_array];
    apply grid4_shape; assumption.
Qed.

End EngineFacts.

(** ** Arithmetic of the number model *)

Lemma f_sqrt_num (x : R) : 0 <= x -> f_sqrt (Num x) = Num (sqrt x).
Proof.
  intros Hx. unfold f_sqrt. destruct (Rlt_dec x 0) as [Hlt|_]; [lra|reflexivity].
Qed.

Lemma f_div_num (x y : R) : y <> 0 -> f_div (Num x) (Num y) = Num (x / y).
Proof.
  intros Hy. unfold f_div. destruct (Req_dec_T y 0) as [He|_]; [contradiction|reflexivity].
Qed.

Lemma c_div_real_num (a b y : R) :
  y <> 0 -> c_div_real (c_of a b) (Num y) = c_of (a / y) (b / y).
Proof.
  intros Hy. unfold c_div_real. simpl.
  destruct (Req_dec_T y 0) as [He|_]; [contradiction|reflexivity].
Qed.

Lemma c_abs_of (x y : R) : c_abs (c_of x y) = Num (sqrt (x * x + y * y)).
Proof.
  unfold c_abs, c_of, f_sq. simpl. apply f_sqrt_num. nra.
Qed.

(** The modulus of [r (cos t + i sin t)] is [r]. *)
Lemma c_abs_polar (r t : R) :
  0 <= r -> c_abs (c_of (r * cos t) (r * sin t)) = Num r.
Proof.
  intros Hr. rewrite c_abs_of. f_equal.
  replace (r * cos t * (r * cos t) + r * sin t * (r * sin t))
    with (r * r * (Rsqr (sin t) + Rsqr (cos t))) by (unfold Rsqr; ring).
  rewrite sin2_cos2, Rmult_1_r. apply sqrt_square. exact Hr.
Qed.

(** A sample of modulus one is its own unit phasor. *)
Lemma unit_phasor_unit (x y : R) :
  x * x + y * y = 1 -> unit_phasor (c_of x y) = c_of x y.
Proof.
  intros Hu. unfold unit_phasor. rewrite c_abs_of, Hu, sqrt_1.
  rewrite c_div_real_num by lra. unfold c_of. f_equal; f_equal; field.
Qed.

(** A zero sample has no phase: its unit phasor is 0/0. *)
Lemma unit_phasor_zero : unit_phasor (c_of 0 0) = c_nan.
Proof.
  unfold unit_phasor. rewrite c_abs_of.
  replace (0 * 0 + 0 * 0) with 0 by ring. rewrite sqrt_0.
  unfold c_div_real. cbn [re im c_of].
  destruct (Req_dec_T 0 0) as [_|Hne]; [reflexivity|contradiction].
Qed.

(** [1j * (u - v)] then [np.exp]: the modulus is [exp (Im v - Im u)]; the
    samples' imaginary parts end up in the real exponent. *)
Lemma c_exp_j_sub (a b c d : R) :
  c_exp (c_mul j1 (c_sub (c_of a b) (c_of c d)))
  = c_of (exp (d - b) * cos (a - c)) (exp (d - b) * sin (a - c)).
Proof.
  unfold c_exp, c_mul, c_sub, j1, c_of. simpl.
  replace (0 * (a - c) - 1 * (b - d)) with (d - b) by ring.
  replace (0 * (b - d) + 1 * (a - c)) with (a - c) by ring.
  reflexivity.
Qed.

(** What [_plv] computes on one sample per sequence. *)
Lemma plv_single (a b c d : R) :
  _plv [c_of a b] [c_of c d] = Num (exp (d - b)).
Proof.
  unfold _plv, vec2, c_sum, f_len. cbn [combine map fst snd fold_left List.length].
  rewrite c_exp_j_sub.
  unfold c_add. cbn [re im c_of f_add f_lift2].
  replace (0 + exp (d - b) * cos (a - c)) with (exp (d - b) * cos (a - c)) by ring.
  replace (0 + exp (d - b) * sin (a - c)) with (exp (d - b) * sin (a - c)) by ring.
  fold (c_of (exp (d - b) * cos (a - c)) (exp (d - b) * sin (a - c))).
  rewrite c_abs_polar by (left; apply exp_pos).
  change (INR 1) with 1. rewrite f_div_num by lra. f_equal. field.
Qed.

Lemma nanmean_single (x : R) : nanmean [Num x] = Num x.
Proof.
  unfold nanmean, drop_nan, f_sum, f_len. cbn [filter is_nan negb fold_left List.length].
  unfold f_add. cbn [f_lift2]. change (INR 1) with 1.
  rewrite f_div_num by lra. f_equal. field.
Qed.

(** What [_coh] computes on one sample of modulus one per sequence. *)
Lemma coh_single (a b c d : R) :
  a * a + b * b = 1 -> c * c + d * d = 1 ->
  _coh [c_of a b] [c_of c d] = Num (exp (d - b)).
Proof.
  intros Hu Hv. unfold _coh, vec2.
  cbn [combine map fst snd].
  rewrite !c_abs_of, Hu, Hv, sqrt_1.
  rewrite !c_div_real_num by lra.
  replace (a / 1) with a by field. replace (b / 1) with b by field.
  replace (c / 1) with c by field. replace (d / 1) with d by field.
  rewrite c_exp_j_sub.
  unfold f_sq, f_mul. cbn [f_lift2].
  unfold c_scale. cbn [re im c_of].
  replace (1 * 1 * (1 * 1)) with 1 by ring.
  rewrite f_sqrt_num by lra. rewrite sqrt_1.
  rewrite c_div_real_num by lra.
  replace (1 * 1 * (exp (d - b) * cos (a - c)) / 1)
    with (exp (d - b) * cos (a - c)) by field.
  replace (1 * 1 * (exp (d - b) * sin (a - c)) / 1)
    with (exp (d - b) * sin (a - c)) by field.
  rewrite c_abs_polar by (left; apply exp_pos).
  apply nanmean_single.
Qed.

Lemma c_exp_j_real (theta : R) :
  c_exp (c_mul j1 (Cx (Num theta) (Num 0))) = c_of (1 * cos theta) (1 * sin theta).
Proof.
  unfold c_exp, c_mul, j1, c_of. simpl.
  replace (0 * theta - 1 * 0) with 0 by ring.
  replace (0 * 0 + 1 * theta) with theta by ring.
  rewrite exp_0. reflexivity.
Qed.

Lemma mean_resultant_length_single (p q : R) :
  mean_resultant_length [Num p] [Num q] = Num 1.
Proof.
  unfold mean_resultant_length, vec2, c_sum, f_len.
  cbn [combine map fst snd fold_left List.length f_sub f_lift2].
  rewrite c_exp_j_real. unfold c_add. cbn [re im c_of f_add f_lift2].
  replace (0 + 1 * cos (p - q)) with (1 * cos (p - q)) by ring.
  replace (0 + 1 * sin (p - q)) with (1 * sin (p - q)) by ring.
  fold (c_of (1 * cos (p - q)) (1 * sin (p - q))).
  rewrite c_abs_polar by lra.
  change (INR 1) with 1. rewrite f_div_num by lra. f_equal. field.
Qed.

Lemma c_angle_i : c_angle (c_of 0 1) = Num (PI / 2).
Proof.
  unfold c_angle, r_angle. simpl.
  destruct (Rlt_dec 0 0) as [H|_]; [lra|].
  destruct (Rlt_dec 0 1) as [_|H]; [reflexivity|lra].
Qed.

Lemma c_angle_one : c_angle (c_of 1 0) = Num 0.
Proof.
  unfold c_angle, r_angle. simpl.
  destruct (Rlt_dec 0 1) as [_|H]; [|lra].
  replace (0 / 1) with 0 by field. rewrite atan_0. reflexivity.
Qed.

Lemma instantaneous_coherence_i_one :
  instantaneous_coherence (c_of 0 1) (c_of 1 0) = Num 1.
Proof.
  unfold instantaneous_coherence.
  rewrite c_angle_i, c_angle_one, !c_abs_of.
  replace (0 * 0 + 1 * 1) with 1 by ring.
  replace (1 * 1 + 0 * 0) with 1 by ring.
  rewrite sqrt_1. cbn [f_sub f_mul f_sq f_lift2].
  rewrite c_exp_j_real. unfold c_scale. cbn [re im c_of].
  replace (1 * 1 * (1 * 1)) with 1 by ring.
  rewrite f_sqrt_num by lra. rewrite sqrt_1.
  replace (1 * 1 * (1 * cos (PI / 2 - 0))) with (1 * cos (PI / 2 - 0)) by ring.
  replace (1 * 1 * (1 * sin (PI / 2 - 0))) with (1 * sin (PI / 2 - 0)) by ring.
  rewrite c_abs_polar by lra. rewrite f_div_num by lra. f_equal. field.
Qed.

Lemma exp_minus_one_lt_one : exp (0 - 1) < 1.
Proof.
  apply Rlt_le_trans with (exp 0); [apply exp_increasing; lra|].
  rewrite exp_0. lra.
Qed.

Lemma one_lt_exp_two : 1 < exp (1 - -1).
Proof.
  apply Rle_lt_trans with (exp 0); [rewrite exp_0; lra|].
  apply exp_increasing. lra.
Qed.

(** The entry that the per-epoch branch computes for a one-sample signal
    of two unit phasors, for the phase locking value and for coherence. *)
Lemma one_sample_plv (a b c d : R) :
  a * a + b * b = 1 -> c * c + d * d = 1 ->
  exists result,
    returns (compute_sync no_statistic no_statistic
                          (one_sample_signal (c_of a b) (c_of c d))
                          (lit "plv") true false) result
    /\ item result [0; 0; 0; 0]%nat = Num (exp (d - b)).
Proof.
  intros Hu Hv.
  exists (per_epoch_array no_statistic no_statistic Plv
                          (one_sample_signal (c_of a b) (c_of c d)) 1 1 1).
  split.
  - apply (per_epoch_returns no_statistic no_statistic Plv) with (S := 1%nat).
    reflexivity.
  - rewrite per_epoch_array_item by lia.
    cbn [apply_metric]. unfold row, one_sample_signal, signal.
    cbn [shape item last range seq map app].
    rewrite !unit_phasor_unit by assumption. apply plv_single.
Qed.

Lemma one_sample_coh (a b c d : R) :
  a * a + b * b = 1 -> c * c + d * d = 1 ->
  exists result,
    returns (compute_sync no_statistic no_statistic
                          (one_sample_signal (c_of a b) (c_of c d))
                          (lit "coh") true false) result
    /\ item result [0; 0; 0; 0]%nat = Num (exp (d - b)).
Proof.
  intros Hu Hv.
  exists (per_epoch_array no_statistic no_statistic Coh
                          (one_sample_signal (c_of a b) (c_of c d)) 1 1 1).
  split.
  - apply (per_epoch_returns no_statistic no_statistic Coh) with (S := 1%nat).
    reflexivity.
  - rewrite per_epoch_array_item by lia.
    cbn [apply_metric]. unfold row, one_sample_signal, signal.
    cbn [shape item last range seq map app].
    apply coh_single; assumption.
Qed.

(** ** The per-epoch branch, entry by entry *)

(** C1 (amended).  In the per-epoch branch the call returns a 4-D array of
    shape (n_freq, n_epoch, n_ch, n_ch) whose entry at (f, e, i, j) is the
    selected metric applied, after the metric's pre-transform, to subject
    0's channel-j sequence and subject 1's channel-i sequence at that
    frequency and epoch: the first channel index of the result is the
    comprehension's outer variable [ch_j], which indexes subject 1. *)
Theorem per_epoch_entry_transposed
        (np_corrcoef01 circcorrcoef : list npfloat -> list npfloat -> npfloat)
        (cs : ndarray complex) (mode : str) (m : metric_name)
        (E Ch Fq S f e i j : nat) :
  shape cs = [2; E; Ch; Fq; S]%nat ->
  selects mode m ->
  (f < Fq)%nat -> (e < E)%nat -> (i < Ch)%nat -> (j < Ch)%nat ->
  exists result,
    returns (compute_sync np_corrcoef01 circcorrcoef cs mode true false) result
    /\ shape result = [Fq; E; Ch; Ch]%nat
    /\ item result [f; e; i; j]%nat
       = apply_metric np_corrcoef01 circcorrcoef m
                      (row cs [0; e; j; f]%nat) (row cs [1; e; i; f]%nat).
Proof.
  intros Hs Hm Hf He Hi Hj. apply is_lit in Hm. subst mode.
  exists (per_epoch_array np_corrcoef01 circcorrcoef m cs Fq E Ch).
  split; [|split].
  - apply per_epoch_returns with (S := S). exact Hs.
  - apply per_epoch_array_shape; lia.
  - apply per_epoch_array_item; assumption.
Qed.

Lemma per_epoch_entry_transposed_witness :
  exists result,
    returns (compute_sync no_statistic no_statistic two_channel_signal
                          (lit "plv") true false) result
    /\ shape result = [1; 1; 2; 2]%nat
    /\ item result [0; 0; 0; 1]%nat
       = apply_metric no_statistic no_statistic Plv
                      (row two_channel_signal [0; 0; 1; 0]%nat)
                      (row two_channel_signal [1; 0; 0; 0]%nat).
Proof.
  apply (@per_epoch_entry_transposed no_statistic no_statistic two_channel_signal
           (lit "plv") Plv 1 2 1 1 0 0 0 1);
    [reflexivity | reflexivity | lia | lia | lia | lia].
Defined.

(** C1 as stated fails: with two channels, entry (0, 0, 0, 1) of the
    result is not the metric of subject 0's channel 0 and subject 1's
    channel 1. *)
Lemma per_epoch_entry_not_as_indexed :
  exists result,
    returns (compute_sync no_statistic no_statistic two_channel_signal
                          (lit "plv") true false) result
    /\ item result [0; 0; 0; 1]%nat
       <> apply_metric no_statistic no_statistic Plv
                       (row two_channel_signal [0; 0; 0; 0]%nat)
                       (row two_channel_signal [1; 0; 1; 0]%nat).
Proof.
  exists (per_epoch_array no_statistic no_statistic Plv two_channel_signal 1 1 2).
  split.
  - apply (per_epoch_returns no_statistic no_statistic Plv) with (S := 1%nat).
    reflexivity.
  - rewrite per_epoch_array_item by lia.
    cbn [apply_metric]. unfold row, two_channel_signal, signal.
    cbn [shape item last range seq map app].
    rewrite !unit_phasor_unit by ring. rewrite !plv_single.
    intros Heq. injection Heq as Heq. apply exp_inv in Heq. lra.
Qed.

(** ** The phase metrics on unit phasors *)

(** C2 (the code at the failing input).  For one sample [i] of subject 0
    and one sample [1] of subject 1 (phase angles pi/2 and 0) the 'plv'
    entry is [exp (-1)], whereas the mean resultant length of the phase
    difference is 1: [_plv] is handed the unit phasors and subtracts them
    where phase angles were meant. *)
Theorem plv_of_unit_phasors_is_not_resultant_length :
  exists result,
    returns (compute_sync no_statistic no_statistic
                          (one_sample_signal (c_of 0 1) (c_of 1 0))
                          (lit "plv") true false) result
    /\ item result [0; 0; 0; 0]%nat = Num (exp (0 - 1))
    /\ mean_resultant_length (map c_angle [c_of 0 1]) (map c_angle [c_of 1 0]) = Num 1
    /\ Num (exp (0 - 1)) <> Num 1.
Proof.
  destruct (@one_sample_plv 0 1 1 0) as [result [Hr Hi]]; [ring|ring|].
  exists result. split; [exact Hr|]. split; [exact Hi|]. split.
  - cbn [map]. rewrite c_angle_i, c_angle_one. apply mean_resultant_length_single.
  - intros Heq. injection Heq as Heq. pose proof exp_minus_one_lt_one. lra.
Qed.

(** C5 (the code at the failing input).  For one sample [-i] of subject 0
    and one sample [i] of subject 1 the 'plv' entry is [exp 2], which is
    above 1. *)
Theorem plv_entry_above_one :
  exists result,
    returns (compute_sync no_statistic no_statistic
                          (one_sample_signal (c_of 0 (-1)) (c_of 0 1))
                          (lit "plv") true false) result
    /\ item result [0; 0; 0; 0]%nat = Num (exp (1 - -1))
    /\ ~ within 0 1 (item result [0; 0; 0; 0]%nat).
Proof.
  destruct (@one_sample_plv 0 (-1) 0 1) as [result [Hr Hi]]; [ring|ring|].
  exists result. split; [exact Hr|]. split; [exact Hi|].
  rewrite Hi. unfold within. pose proof one_lt_exp_two. lra.
Qed.

(** The other half of C5: every 'ccorr' entry of the per-epoch result is
    a value of the circular-correlation primitive, so it is within [-1, 1]
    as soon as the primitive keeps its contract. *)
Lemma ccorr_entry_within_contract
      (np_corrcoef01 circcorrcoef : list npfloat -> list npfloat -> npfloat)
      (cs : ndarray complex) (E Ch Fq S f e i j : nat) :
  (forall P Q, within (-1) 1 (circcorrcoef P Q)) ->
  shape cs = [2; E; Ch; Fq; S]%nat ->
  (f < Fq)%nat -> (e < E)%nat -> (i < Ch)%nat -> (j < Ch)%nat ->
  exists result,
    returns (compute_sync np_corrcoef01 circcorrcoef cs (lit "ccorr") true false)
            result
    /\ within (-1) 1 (item result [f; e; i; j]%nat).
Proof.
  intros Hcontract Hs Hf He Hi Hj.
  exists (per_epoch_array np_corrcoef01 circcorrcoef Ccorr cs Fq E Ch). split.
  - apply (per_epoch_returns np_corrcoef01 circcorrcoef Ccorr cs Hs).
  - rewrite per_epoch_array_item by assumption. apply Hcontract.
Qed.

(** C6 (the code at the failing input).  For one sample [i] of subject 0
    and one sample [1] of subject 1 the 'coh' entry is [exp (-1)], whereas
    the mean over samples of |A1 A2 e^(i dphi)| / sqrt(A1^2 A2^2) is 1. *)
Theorem coh_of_unit_phasors_is_not_mean_coherence :
  exists result,
    returns (compute_sync no_statistic no_statistic
                          (one_sample_signal (c_of 0 1) (c_of 1 0))
                          (lit "coh") true false) result
    /\ item result [0; 0; 0; 0]%nat = Num (exp (0 - 1))
    /\ mean_coherence [c_of 0 1] [c_of 1 0] = Num 1
    /\ Num (exp (0 - 1)) <> Num 1.
Proof.
  destruct (@one_sample_coh 0 1 1 0) as [result [Hr Hi]]; [ring|ring|].
  exists result. split; [exact Hr|]. split; [exact Hi|]. split.
  - unfold mean_coherence, vec2. cbn [combine map fst snd].
    rewrite instantaneous_coherence_i_one. apply nanmean_single.
  - intros Heq. injection Heq as Heq. pose proof exp_minus_one_lt_one. lra.
Qed.

(** ** Which exceptions a computation can raise *)

Lemma may_raise_ret {A} (P : exn -> Prop) (a : A) : may_raise P (ret a).
Proof. intros x Hx. discriminate Hx. Qed.

Lemma may_raise_tick (P : exn -> Prop) (ev : event) : may_raise P (tick ev).
Proof. intros x Hx. discriminate Hx. Qed.

Lemma may_raise_raise {A} (P : exn -> Prop) (e : exn) :
  P e -> may_raise P (@raise A e).
Proof. intros He x Hx. injection Hx as <-. exact He. Qed.

Lemma may_raise_bind {A B} (P : exn -> Prop) (m : M A) (k : A -> M B) :
  may_raise P m -> (forall a, may_raise P (k a)) -> may_raise P (bind m k).
Proof.
  destruct m as [l [e|a]]; simpl; intros Hm Hk x.
  - intros Hx. apply Hm. unfold outcome in *. simpl in *. congruence.
  - unfold outcome. destruct (k a) as [l' r] eqn:Hka. simpl. intros ->.
    apply (Hk a). rewrite Hka. reflexivity.
Qed.

Lemma may_raise_for {A B} (P : exn -> Prop) (l : list A) (f : A -> M B) :
  (forall x, may_raise P (f x)) -> may_raise P (for_ l f).
Proof.
  intros Hf. induction l as [|y l IH]; simpl.
  - apply may_raise_ret.
  - apply may_raise_bind; [apply Hf|]. intros b.
    apply may_raise_bind; [exact IH|]. intros bs. apply may_raise_ret.
Qed.

Lemma may_raise_call {A} (P : exn -> Prop) (name : string) (r : string + A) :
  (forall msg, P (External msg)) -> may_raise P (call name r).
Proof.
  intros HP. unfold call. apply may_raise_bind; [apply may_raise_tick|].
  intros _. destruct r; [apply may_raise_raise; apply HP|apply may_raise_ret].
Qed.

Lemma may_raise_weaken {A} (P Q : exn -> Prop) (m : M A) :
  (forall x, P x -> Q x) -> may_raise P m -> may_raise Q m.
Proof. intros HPQ Hm x Hx. apply HPQ, Hm, Hx. Qed.

Create HintDb raises.

(** Walks through binds and comprehensions. *)
Ltac raises :=
  repeat first
         [ apply may_raise_ret
         | apply may_raise_tick
         | (apply may_raise_raise; exact I)
         | (apply may_raise_call; intro; exact I)
         | (apply may_raise_bind; [|intro])
         | (apply may_raise_for; intro)
         | solve [auto with raises] ].

Section NoAssertion.

Context {V : Type} `{Dflt V}.

Lemma shape_at_not_assertion (a : ndarray V) (k : nat) :
  may_raise not_assertion (shape_at a k).
Proof. unfold shape_at. destruct (nth_error (shape a) k); raises. Qed.

Lemma np_row_not_assertion (a : ndarray V) (idx : list nat) :
  may_raise not_assertion (np_row a idx).
Proof. unfold np_row. destruct (_ && _); raises. Qed.

Lemma np_index0_not_assertion (a : ndarray V) (i : nat) :
  may_raise not_assertion (np_index0 a i).
Proof.
  unfold np_index0. destruct (shape a) as [|d sh]; [raises|].
  destruct (i <? d)%nat; raises.
Qed.

Lemma np_stack_not_assertion (l : list (ndarray V)) :
  may_raise not_assertion (np_stack l).
Proof.
  unfold np_stack. destruct l as [|a l]; [raises|].
  destruct (forallb _ _); raises.
Qed.

Lemma np_concatenate_axis2_not_assertion (l : list (ndarray V)) :
  may_raise not_assertion (np_concatenate_axis2 l).
Proof.
  unfold np_concatenate_axis2. destruct l as [|a l]; [raises|].
  destruct (ndim a =? 3)%nat; raises.
Qed.

Lemma np_moveaxis_0_3_not_assertion (a : ndarray V) :
  may_raise not_assertion (np_moveaxis_0_3 a).
Proof.
  unfold np_moveaxis_0_3. destruct (4 <=? ndim a)%nat; raises.
Qed.

End NoAssertion.

#[export] Hint Resolve shape_at_not_assertion np_row_not_assertion
  np_index0_not_assertion np_stack_not_assertion
  np_concatenate_axis2_not_assertion np_moveaxis_0_3_not_assertion : raises.

Lemma py_index_not_assertion {A} (l : list A) (k : nat) :
  may_raise not_assertion (py_index l k).
Proof. unfold py_index. destruct (nth_error l k); raises. Qed.

Lemma np_nanmean_axis1_not_assertion (a : ndarray npfloat) :
  may_raise not_assertion (np_nanmean_axis1 a).
Proof.
  unfold np_nanmean_axis1. destruct (shape a) as [|d0 [|d1 rest]]; raises.
Qed.

Lemma pre_not_assertion {V W} (f : V -> W) (a : ndarray V) :
  may_raise not_assertion (pre f a).
Proof. unfold pre. raises. Qed.

Lemma per_epoch_grid_not_assertion {V} (metric : list V -> list V -> npfloat)
      (values : ndarray V) (Fq E Ch : nat) :
  may_raise not_assertion (per_epoch_grid metric values Fq E Ch).
Proof. unfold per_epoch_grid. raises; apply np_row_not_assertion. Qed.

Lemma concat_grid_not_assertion {V} (metric : list V -> list V -> npfloat)
      (strands : ndarray V) (Fq Ch : nat) :
  may_raise not_assertion (concat_grid metric strands Fq Ch).
Proof. unfold concat_grid. raises; apply np_row_not_assertion. Qed.

Lemma strands_of_not_assertion {V} `{Dflt V} (values : ndarray V) :
  may_raise not_assertion (strands_of values).
Proof. unfold strands_of. raises. Qed.

#[export] Hint Resolve py_index_not_assertion np_nanmean_axis1_not_assertion
  pre_not_assertion per_epoch_grid_not_assertion concat_grid_not_assertion
  strands_of_not_assertion : raises.

(** The engine raises no [AssertionError]. *)
Lemma compute_sync_not_assertion
      (np_corrcoef01 circcorrcoef : list npfloat -> list npfloat -> npfloat)
      (cs : ndarray complex) (mode : str) (ew tr : bool) :
  may_raise not_assertion (compute_sync np_corrcoef01 circcorrcoef cs mode ew tr).
Proof.
  unfold compute_sync. raises.
  destruct ew.
  - raises.
    + repeat match goal with
             | |- context [if ?b then _ else _] => destruct b
             end; raises.
    + destruct tr; raises.
  - repeat match goal with
           | |- context [if ?b then _ else _] => destruct b
           end; raises.
Qed.

(** ** The metric dispatch *)

Lemma is_lit_chars (mode : str) (c : string) :
  is_ mode (lit c) = true -> chars mode = c.
Proof. intros Hm%is_lit. subst mode. reflexivity. Qed.

Lemma is_outside_set (mode : str) (m : metric_name) :
  ~ in_metric_set mode -> is_ mode (lit (literal m)) = false.
Proof.
  intros Hout. destruct (is_ mode (lit (literal m))) eqn:Hm; [|reflexivity].
  exfalso. apply Hout. exists m. apply is_lit_chars. exact Hm.
Qed.

(** A string whose characters are in none of the seven names is refused
    with a [NameError] that quotes it, in both branches, and nothing has
    been computed by then. *)
Lemma unsupported_fails_fast
      (np_corrcoef01 circcorrcoef : list npfloat -> list npfloat -> npfloat)
      (cs : ndarray complex) (mode : str) (ew tr : bool) (E Ch Fq S : nat) :
  shape cs = [2; E; Ch; Fq; S]%nat ->
  ~ in_metric_set mode ->
  compute_sync np_corrcoef01 circcorrcoef cs mode ew tr
  = ([], inl (NameError ("Sychrony metric " ++ chars mode ++ " not supported."))).
Proof.
  intros Hs Hout. unfold compute_sync.
  rewrite (compute_sync_dims cs mode ew tr _ Hs). cbv iota.
  pose proof (is_outside_set Envelope Hout) as H1.
  pose proof (is_outside_set Power Hout) as H2.
  pose proof (is_outside_set Plv Hout) as H3.
  pose proof (is_outside_set Ccorr Hout) as H4.
  pose proof (is_outside_set Proj Hout) as H5.
  pose proof (is_outside_set Imagcoh Hout) as H6.
  pose proof (is_outside_set Coh Hout) as H7.
  cbn [literal] in *. rewrite H1, H2, H3, H4, H5, H6, H7.
  destruct ew; reflexivity.
Qed.

(** No string built at run time passes an identity test against a
    literal, whatever its characters. *)
Lemma runtime_string_never_selected
      (np_corrcoef01 circcorrcoef : list npfloat -> list npfloat -> npfloat)
      (cs : ndarray complex) (addr : nat) (c : string) (ew tr : bool)
      (E Ch Fq S : nat) :
  shape cs = [2; E; Ch; Fq; S]%nat ->
  compute_sync np_corrcoef01 circcorrcoef cs (Fresh addr c) ew tr
  = ([], inl (unsupported (Fresh addr c))).
Proof.
  intros Hs. unfold compute_sync.
  rewrite (compute_sync_dims cs (Fresh addr c) ew tr _ Hs).
  destruct ew; reflexivity.
Qed.

(** C3 (the code at the failing input).  A string object with the
    characters of 'plv' that is not the interned literal (one built at run
    time) is refused as unsupported in both branches: the dispatch tests
    [mode is 'plv'], the identity of objects, where equality was meant. *)
Theorem runtime_plv_string_is_refused (addr : nat) (ew tr : bool) :
  compute_sync no_statistic no_statistic
               (one_sample_signal (c_of 1 0) (c_of 1 0)) (Fresh addr "plv") ew tr
  = ([], inl (NameError "Sychrony metric plv not supported."))
  /\ in_metric_set (Fresh addr "plv")
  /\ eq_ (Fresh addr "plv") (lit "plv") = true
  /\ UnsupportedMetric (NameError "Sychrony metric plv not supported.").
Proof.
  split; [destruct ew, tr; reflexivity|].
  split; [exists Plv; reflexivity|].
  split; [reflexivity|]. eexists. reflexivity.
Qed.

(** ** The facade *)

Lemma not_assertion_not_mismatch (x : exn) : not_assertion x -> ~ InputMismatch x.
Proof.
  intros Hx [msg [-> | ->]]; exact Hx.
Qed.

Section FacadeFacts.

Variable tfr_array_multitaper :
  ndarray npfloat -> nat -> list Z -> string + ndarray complex.
Variable filter_data :
  ndarray npfloat -> nat -> Z -> Z -> string + ndarray npfloat.
Variable hilbert : ndarray npfloat -> string + ndarray complex.
Variable np_corrcoef01 : list npfloat -> list npfloat -> npfloat.
Variable circcorrcoef : list npfloat -> list npfloat -> npfloat.

Lemma compute_single_freq_not_assertion (data : dyad) (freq_range : list Z) :
  may_raise not_assertion
            (compute_single_freq tfr_array_multitaper data freq_range).
Proof. unfold compute_single_freq. raises. Qed.

Lemma band_signal_not_assertion (data : ndarray npfloat) (n_samp : nat)
      (freq_band : list Z) :
  may_raise not_assertion (band_signal filter_data hilbert data n_samp freq_band).
Proof. unfold band_signal. raises. Qed.

(** With equal epoch counts the band path can only fail its shape
    post-condition, or with what its callees raise. *)
Lemma compute_freq_bands_no_mismatch (data : dyad)
      (freq_bands : list (str * list Z)) (e : nat) :
  nth_error (shape (subject data 0)) 0 = Some e ->
  nth_error (shape (subject data 1)) 0 = Some e ->
  may_raise (fun x => ~ InputMismatch x)
            (compute_freq_bands filter_data hilbert data freq_bands).
Proof.
  intros H0 H1. unfold compute_freq_bands, shape_at.
  rewrite H0, H1, !bind_ret, Nat.eqb_refl. unfold assert_ at 1.
  rewrite bind_ret.
  apply may_raise_bind; [|intro n_ch].
  { eapply may_raise_weaken; [apply not_assertion_not_mismatch|].
    destruct (nth_error _ 1); raises. }
  apply may_raise_bind; [|intro n_samp].
  { eapply may_raise_weaken; [apply not_assertion_not_mismatch|].
    destruct (nth_error _ 2); raises. }
  apply may_raise_bind; [|intro data'].
  { eapply may_raise_weaken; [apply not_assertion_not_mismatch|]. raises. }
  apply may_raise_bind; [|intro signals].
  { eapply may_raise_weaken; [apply not_assertion_not_mismatch|].
    apply may_raise_for. intro. apply band_signal_not_assertion. }
  apply may_raise_bind; [|intro stacked].
  { eapply may_raise_weaken; [apply not_assertion_not_mismatch|]. raises. }
  apply may_raise_bind; [|intro moved].
  { eapply may_raise_weaken; [apply not_assertion_not_mismatch|]. raises. }
  apply may_raise_bind; [|intro; apply may_raise_ret].
  unfold assert_. destruct (list_eq_dec _ _ _); [apply may_raise_ret|].
  apply may_raise_raise. intros [msg [Hm | Hm]]; discriminate Hm.
Qed.

Lemma simple_corr_no_mismatch (data : dyad) (frequencies : obj) (mode : str)
      (ew tr : bool) (e : nat) :
  nth_error (shape (subject data 0)) 0 = Some e ->
  nth_error (shape (subject data 1)) 0 = Some e ->
  may_raise (fun x => ~ InputMismatch x)
            (simple_corr tfr_array_multitaper filter_data hilbert
                         np_corrcoef01 circcorrcoef data frequencies mode ew tr).
Proof.
  intros H0 H1. unfold simple_corr, shape_at.
  rewrite H0, H1, !bind_ret, Nat.eqb_refl. unfold assert_.
  rewrite bind_ret.
  apply may_raise_bind; [|intros [v|]].
  - destruct frequencies; try apply may_raise_ret.
    + apply may_raise_bind; [|intro; apply may_raise_ret].
      eapply may_raise_weaken; [apply not_assertion_not_mismatch|].
      apply compute_single_freq_not_assertion.
    + apply may_raise_bind; [|intro; apply may_raise_ret].
      apply compute_freq_bands_no_mismatch with (e := e); assumption.
  - eapply may_raise_weaken; [apply not_assertion_not_mismatch|].
    apply compute_sync_not_assertion.
  - apply may_raise_raise. intros [msg [Hm | Hm]]; discriminate Hm.
Qed.

(** C7.  When the two streams' epoch counts disagree, the facade (and
    the band builder on its own) fails with the epoch-count assertion
    and an empty trace: no decomposition, transform or metric has run,
    whatever the collaborators would do.  When the counts agree, neither
    ever ends with that condition. *)
Theorem epoch_mismatch_checked_first (data : dyad) (frequencies : obj)
        (freq_bands : list (str * list Z)) (mode : str) (ew tr : bool)
        (e0 e1 : nat) :
  nth_error (shape (subject data 0)) 0 = Some e0 ->
  nth_error (shape (subject data 1)) 0 = Some e1 ->
  (e0 <> e1 ->
   simple_corr tfr_array_multitaper filter_data hilbert np_corrcoef01
               circcorrcoef data frequencies mode ew tr
   = ([], inl (AssertionError 59 "Two streams much have the same lengths."))
   /\ compute_freq_bands filter_data hilbert data freq_bands
      = ([], inl (AssertionError 250 ""))
   /\ InputMismatch (AssertionError 59 "Two streams much have the same lengths.")
   /\ InputMismatch (AssertionError 250 ""))
  /\ (e0 = e1 ->
      may_raise (fun x => ~ InputMismatch x)
                (simple_corr tfr_array_multitaper filter_data hilbert
                             np_corrcoef01 circcorrcoef data frequencies mode ew tr)
      /\ may_raise (fun x => ~ InputMismatch x)
                   (compute_freq_bands filter_data hilbert data freq_bands)).
Proof.
  intros H0 H1. split.
  - intros Hne. apply Nat.eqb_neq in Hne.
    unfold simple_corr, compute_freq_bands, shape_at.
    rewrite H0, H1, !bind_ret, Hne.
    repeat split; try reflexivity.
    + eexists. left. reflexivity.
    + eexists. right. reflexivity.
  - intros <-. split.
    + apply simple_corr_no_mismatch with (e := e0); assumption.
    + apply compute_freq_bands_no_mismatch with (e := e0); assumption.
Qed.

(** C10 (amended).  When the two streams have the same epoch count and
    the frequency specification is neither a list nor a dict, the facade
    fails with the unbound local [values], before any numerical work; that
    exception is none of the documented conditions. *)
Theorem unbound_values_when_neither_list_nor_dict (data : dyad)
        (frequencies : obj) (mode : str) (ew tr : bool) (e : nat) :
  type_is_list frequencies = false ->
  type_is_dict frequencies = false ->
  nth_error (shape (subject data 0)) 0 = Some e ->
  nth_error (shape (subject data 1)) 0 = Some e ->
  simple_corr tfr_array_multitaper filter_data hilbert np_corrcoef01
              circcorrcoef data frequencies mode ew tr
  = ([], inl (UnboundLocalError "values"))
  /\ ~ InputMismatch (UnboundLocalError "values")
  /\ ~ UnsupportedMetric (UnboundLocalError "values")
  /\ ~ ShapeMismatch (UnboundLocalError "values").
Proof.
  intros Hl Hd H0 H1. split; [|split; [|split]].
  - unfold simple_corr, shape_at.
    rewrite H0, H1, !bind_ret, Nat.eqb_refl. unfold assert_.
    rewrite bind_ret.
    destruct frequencies; try discriminate; reflexivity.
  - intros [msg [Hm | Hm]]; discriminate Hm.
  - intros [msg Hm]; discriminate Hm.
  - intros [msg Hm]; discriminate Hm.
Qed.

End FacadeFacts.

Lemma epoch_mismatch_checked_first_witness :
  simple_corr tfr_down filter_down hilbert_down no_statistic no_statistic
              (recording 1 1 1 0, recording 2 1 1 0) (PyList [5; 30]%Z)
              (lit "plv") true true
  = ([], inl (AssertionError 59 "Two streams much have the same lengths.")).
Proof.
  refine (proj1 (proj1 (@epoch_mismatch_checked_first
                          tfr_down filter_down hilbert_down no_statistic no_statistic
                          (recording 1 1 1 0, recording 2 1 1 0) (PyList [5; 30]%Z)
                          [] (lit "plv") true true 1 2 _ _) _)).
  - reflexivity.
  - reflexivity.
  - discriminate.
Defined.

Lemma unbound_values_when_neither_list_nor_dict_witness :
  simple_corr tfr_down filter_down hilbert_down no_statistic no_statistic
              (recording 1 1 1 0, recording 1 1 1 0) (PyTuple [5; 30]%Z)
              (lit "plv") true true
  = ([], inl (UnboundLocalError "values")).
Proof.
  refine (proj1 (@unbound_values_when_neither_list_nor_dict
                   tfr_down filter_down hilbert_down no_statistic no_statistic
                   (recording 1 1 1 0, recording 1 1 1 0) (PyTuple [5; 30]%Z)
                   (lit "plv") true true 1 _ _ _ _)); reflexivity.
Defined.

(** C10 as stated fails: with a tuple for the frequencies and streams of
    one and two epochs, the facade ends with the epoch-count assertion, a
    documented condition, and not with the unbound local. *)
Lemma tuple_with_mismatched_epochs_is_input_mismatch :
  type_is_list (PyTuple [5; 30]%Z) = false
  /\ type_is_dict (PyTuple [5; 30]%Z) = false
  /\ simple_corr tfr_down filter_down hilbert_down no_statistic no_statistic
                 (recording 1 1 1 0, recording 2 1 1 0) (PyTuple [5; 30]%Z)
                 (lit "plv") true true
     = ([], inl (AssertionError 59 "Two streams much have the same lengths."))
  /\ InputMismatch (AssertionError 59 "Two streams much have the same lengths.")
  /\ AssertionError 59 "Two streams much have the same lengths."
     <> UnboundLocalError "values".
Proof.
  repeat split; try reflexivity.
  - eexists. left. reflexivity.
  - discriminate.
Qed.

(** ** Concatenating the epochs *)

Lemma flat_map_map {A B C} (f : B -> list C) (g : A -> B) (l : list A) :
  flat_map f (map g l) = flat_map (fun x => f (g x)) l.
Proof.
  induction l as [|x l IH]; simpl; [reflexivity|]. rewrite IH. reflexivity.
Qed.

Lemma map_flat_map {A B C} (f : B -> C) (g : A -> list B) (l : list A) :
  map f (flat_map g l) = flat_map (fun x => map f (g x)) l.
Proof.
  induction l as [|x l IH]; simpl; [reflexivity|].
  rewrite map_app, IH. reflexivity.
Qed.

Lemma length_flat_map_const {A B} (g : A -> list B) (k : nat) (l : list A) :
  (forall x, List.length (g x) = k) ->
  List.length (flat_map g l) = (List.length l * k)%nat.
Proof.
  intros Hg. induction l as [|x l IH]; simpl; [reflexivity|].
  rewrite length_app, Hg, IH. reflexivity.
Qed.

Lemma list_sum_map_const {A} (k : nat) (l : list A) :
  list_sum (map (fun _ => k) l) = (List.length l * k)%nat.
Proof.
  induction l as [|x l IH]; simpl; [reflexivity|]. rewrite IH. reflexivity.
Qed.

Lemma map_nth_range {A} (L : list A) (d : A) :
  map (fun t => nth t L d) (range (List.length L)) = L.
Proof.
  apply nth_ext with (d := d) (d' := d).
  - unfold range. rewrite length_map, length_seq. reflexivity.
  - unfold range. rewrite length_map, length_seq. intros n Hn.
    rewrite (nth_indep _ d (nth 0 L d)) by (rewrite length_map, length_seq; exact Hn).
    rewrite (map_nth (fun t => nth t L d) (seq 0 (List.length L)) 0%nat n).
    rewrite seq_nth by exact Hn. reflexivity.
Qed.

Section Strands.

Context {V : Type} `{Dflt V}.

(** The rows that [np.concatenate] joins for one subject are the rows of
    the epochs in order. *)
Lemma joined_epochs (values : ndarray V) (E Ch Fq S n c f : nat) :
  shape values = [2; E; Ch; Fq; S]%nat ->
  joined (np_iter (np_sub values n)) c f
  = flat_map (fun e => row values [n; e; c; f]%nat) (range E).
Proof.
  intros Hs. unfold joined, np_iter, row. cbn [np_sub shape]. rewrite Hs.
  cbn [tl hd nth last]. rewrite flat_map_map.
  apply flat_map_ext. intros e. cbn [np_sub shape item]. rewrite Hs. reflexivity.
Qed.

Lemma length_joined_epochs (values : ndarray V) (E Ch Fq S n c f : nat) :
  shape values = [2; E; Ch; Fq; S]%nat ->
  List.length (joined (np_iter (np_sub values n)) c f) = (E * S)%nat.
Proof.
  intros Hs. rewrite (joined_epochs values n c f Hs).
  rewrite length_flat_map_const with (k := S).
  - unfold range. rewrite length_seq. reflexivity.
  - intros e. unfold row, range. rewrite length_map, length_seq, Hs. reflexivity.
Qed.

Lemma strand_shape (values : ndarray V) (E Ch Fq S n : nat) :
  shape values = [2; E; Ch; Fq; S]%nat ->
  shape (strand values n) = [Ch; Fq; E * S]%nat.
Proof.
  intros Hs. unfold strand, concatenated, np_iter. cbn [np_sub shape]. rewrite Hs.
  cbn [tl hd nth]. rewrite map_map. cbn [np_sub shape]. rewrite Hs.
  cbn [tl nth].
  rewrite list_sum_map_const. unfold range. rewrite length_seq. reflexivity.
Qed.

Lemma strands_shape (values : ndarray V) (E Ch Fq S : nat) :
  shape values = [2; E; Ch; Fq; S]%nat ->
  shape (strands values) = [2; Ch; Fq; E * S]%nat.
Proof.
  intros Hs. unfold strands, stacked. cbn [shape List.length].
  rewrite (strand_shape values 0 Hs). reflexivity.
Qed.

(** A row of the strands is the long sequence of the epochs' rows. *)
Lemma strands_row (values : ndarray V) (E Ch Fq S n c f : nat) :
  shape values = [2; E; Ch; Fq; S]%nat ->
  (n < 2)%nat ->
  row (strands values) [n; c; f]%nat
  = flat_map (fun e => row values [n; e; c; f]%nat) (range E).
Proof.
  intros Hs Hn. unfold row at 1. rewrite (strands_shape values Hs).
  cbn [last app]. unfold strands, stacked. cbn [item].
  rewrite <- (joined_epochs values n c f Hs).
  rewrite <- (length_joined_epochs values n c f Hs).
  assert (Hitem : forall t,
             item (nth n [strand values 0; strand values 1] (strand values 0)) [c; f; t]
             = nth t (joined (np_iter (np_sub values n)) c f) dflt).
  { intros t. destruct n as [|[|n]]; [reflexivity|reflexivity|lia]. }
  erewrite map_ext by (intros t; apply Hitem).
  apply map_nth_range.
Qed.

Lemma strands_of_returns (values : ndarray V) (E Ch Fq S : nat) :
  shape values = [2; E; Ch; Fq; S]%nat ->
  (0 < E)%nat ->
  returns (strands_of values) (strands values).
Proof.
  intros Hs HE. unfold strands_of.
  eapply returns_bind.
  - apply (returns_for _ (strand values)). intros n Hn%in_range.
    eapply returns_bind.
    + unfold np_index0. rewrite Hs.
      apply Nat.ltb_lt in Hn. rewrite Hn. apply returns_ret.
    + unfold strand, np_concatenate_axis2, np_iter. cbn [np_sub shape]. rewrite Hs.
      cbn [tl hd]. destruct E as [|E']; [lia|].
      unfold range. cbn [seq map]. unfold ndim. cbn [np_sub shape]. rewrite Hs.
      cbn [tl List.length Nat.eqb].
      eapply returns_bind; [apply returns_tick|apply returns_ret].
  - cbn [range seq map]. unfold np_stack. cbn [forallb].
    rewrite (strand_shape values 0 Hs), (strand_shape values 1 Hs).
    destruct (list_eq_dec Nat.eq_dec _ _) as [_|Hne]; [|contradiction].
    cbn [andb]. apply returns_ret.
Qed.

End Strands.

(** ** The concatenated branch *)

Lemma strands_row_raw (cs : ndarray complex) (E Ch Fq S n c f : nat) :
  shape cs = [2; E; Ch; Fq; S]%nat ->
  (n < 2)%nat ->
  row (strands cs) [n; c; f]%nat = long_sequence cs n c f.
Proof.
  intros Hs Hn. rewrite (strands_row cs c f Hs Hn).
  unfold long_sequence. rewrite Hs. reflexivity.
Qed.

(** Transforming the tensor and then joining the epochs gives the
    transform of the long sequence. *)
Lemma strands_row_transformed {W} `{Dflt W} (g : complex -> W)
      (cs : ndarray complex) (E Ch Fq S n c f : nat) :
  shape cs = [2; E; Ch; Fq; S]%nat ->
  (n < 2)%nat ->
  row (strands (np_map g cs)) [n; c; f]%nat = map g (long_sequence cs n c f).
Proof.
  intros Hs Hn.
  rewrite (strands_row (np_map g cs) (E := E) (Ch := Ch) (Fq := Fq) (S := S) c f)
    by assumption.
  unfold long_sequence. rewrite Hs. cbn [nth]. rewrite map_flat_map.
  apply flat_map_ext. intros e. apply row_np_map.
Qed.

Section ConcatenatedFacts.

Variable np_corrcoef01 : list npfloat -> list npfloat -> npfloat.
Variable circcorrcoef : list npfloat -> list npfloat -> npfloat.

Lemma concatenated_returns (m : metric_name) (cs : ndarray complex)
      (E Ch Fq S : nat) (tr : bool) :
  shape cs = [2; E; Ch; Fq; S]%nat ->
  (0 < E)%nat ->
  returns (compute_sync np_corrcoef01 circcorrcoef cs (Interned (literal m)) false tr)
          (concatenated_array np_corrcoef01 circcorrcoef m cs Fq Ch).
Proof.
  intros Hs HE. unfold compute_sync.
  rewrite (compute_sync_dims cs (Interned (literal m)) false tr _ Hs).
  cbv iota.
  destruct m; cbn [literal]; decide_is; cbn [concatenated_array];
    try (eapply returns_bind; [apply returns_pre|]);
    (eapply returns_bind;
     [ eapply strands_of_returns; [exact Hs|exact HE]
     | eapply concat_grid_returns; eapply strands_shape; exact Hs ]).
Qed.

Lemma concatenated_array_item (m : metric_name) (cs : ndarray complex)
      (E Ch Fq S f a b : nat) :
  shape cs = [2; E; Ch; Fq; S]%nat ->
  (f < Fq)%nat -> (a < Ch)%nat -> (b < Ch)%nat ->
  item (concatenated_array np_corrcoef01 circcorrcoef m cs Fq Ch) [f; a; b]%nat
  = apply_metric np_corrcoef01 circcorrcoef m
                 (long_sequence cs 0 b f) (long_sequence cs 1 a f).
Proof.
  intros Hs Hf Ha Hb.
  destruct m; cbn [concatenated_array apply_metric];
    rewrite grid3_item by assumption;
    rewrite ?(strands_row_transformed _ cs _ _ Hs) by lia;
    rewrite ?(strands_row_raw cs _ _ Hs) by lia;
    reflexivity.
Qed.

Lemma concatenated_array_shape (m : metric_name) (cs : ndarray complex)
      (Fq Ch : nat) :
  (0 < Fq)%nat -> (0 < Ch)%nat ->
  shape (concatenated_array np_corrcoef01 circcorrcoef m cs Fq Ch) = [Fq; Ch; Ch]%nat.
Proof.
  intros Hf Hc. destruct m; cbn [concatenated_array]; apply grid3_shape; assumption.
Qed.

(** The concatenated branch where its documentation holds.  When
    per_epoch is false and the signal has at least
    one epoch, one channel and one frequency, the call returns a 3-D array
    of shape (n_freq, n_ch, n_ch) whose entries are what is obtained by
    concatenating all epochs along the time axis first, applying the
    pre-transform to the long sequences and evaluating the metric once per
    frequency and channel pair; and for every signal and mode the call is
    the same whether time_resolved is true or false. *)
Theorem concatenated_branch_concatenates_first
        (cs : ndarray complex) (mode : str) (m : metric_name)
        (E Ch Fq S : nat) (tr : bool) :
  shape cs = [2; E; Ch; Fq; S]%nat ->
  selects mode m ->
  (0 < E)%nat -> (0 < Ch)%nat -> (0 < Fq)%nat ->
  (exists result,
      returns (compute_sync np_corrcoef01 circcorrcoef cs mode false tr) result
      /\ shape result = [Fq; Ch; Ch]%nat
      /\ forall f a b, (f < Fq)%nat -> (a < Ch)%nat -> (b < Ch)%nat ->
           item result [f; a; b]%nat
           = apply_metric np_corrcoef01 circcorrcoef m
                          (long_sequence cs 0 b f) (long_sequence cs 1 a f))
  /\ (forall (cs' : ndarray complex) (mode' : str),
         compute_sync np_corrcoef01 circcorrcoef cs' mode' false true
         = compute_sync np_corrcoef01 circcorrcoef cs' mode' false false).
Proof.
  intros Hs Hm HE HC HF. apply is_lit in Hm. subst mode. split.
  - exists (concatenated_array np_corrcoef01 circcorrcoef m cs Fq Ch).
    split; [|split].
    + apply concatenated_returns with (E := E) (S := S); assumption.
    + apply concatenated_array_shape; assumption.
    + intros f a b Hf Ha Hb.
      apply concatenated_array_item with (E := E) (S := S); assumption.
  - intros cs' mode'. reflexivity.
Qed.

End ConcatenatedFacts.

(** Two epochs of one sample each: the metric sees the two-sample
    sequences that joining the epochs gives. *)
Lemma concatenated_branch_concatenates_first_witness :
  exists result,
    returns (compute_sync no_statistic no_statistic two_epoch_signal
                          (lit "coh") false true) result
    /\ shape result = [1; 1; 1]%nat
    /\ item result [0; 0; 0]%nat
       = _coh [c_of 1 0; c_of 0 1] [c_of 1 0; c_of 1 0].
Proof.
  destruct (@concatenated_branch_concatenates_first no_statistic no_statistic
              two_epoch_signal (lit "coh") Coh 2 1 1 1 true)
    as [[result [Hr [Hshape Hitem]]] _];
    [reflexivity | reflexivity | lia | lia | lia |].
  exists result. split; [exact Hr|]. split; [exact Hshape|].
  rewrite Hitem by lia. reflexivity.
Defined.

(** C8.  The result is not always 3-D: for a signal with one epoch, one
    frequency and no channel the concatenated branch returns a 2-D array
    of shape (1, 0), where the docstring of [compute_sync] states
    (n_freq, n_channels, n_channels), here (1, 0, 0); [np.array] finds no
    third axis in a list of empty lists. *)
Lemma concatenated_result_not_always_3d :
  result_shape (compute_sync no_statistic no_statistic
                             (signal 1 0 1 1 (fun _ _ _ _ _ => c_of 1 0))
                             (lit "plv") false true)
  = inr [1; 0]%nat
  /\ List.length [1; 0]%nat <> 3%nat.
Proof.
  split; [vm_compute; reflexivity|discriminate].
Qed.

(** ** Averaging over epochs *)

Lemma outcome_bind {A B} (m : M A) (k : A -> M B) :
  outcome (bind m k) = match outcome m with
                       | inl e => inl e
                       | inr a => outcome (k a)
                       end.
Proof.
  destruct m as [l [e|a]]; simpl; [reflexivity|].
  unfold outcome. destruct (k a). reflexivity.
Qed.

(** On a signal with at least one frequency, epoch and channel, the
    time-resolved entry at (f, i, j) is the NaN-skipping mean over the
    epochs e of the per-epoch entries at (f, e, i, j). *)
Lemma time_resolved_entry
      (np_corrcoef01 circcorrcoef : list npfloat -> list npfloat -> npfloat)
      (cs : ndarray complex) (m : metric_name) (E Ch Fq S : nat) :
  shape cs = [2; E; Ch; Fq; S]%nat ->
  (0 < E)%nat -> (0 < Ch)%nat -> (0 < Fq)%nat ->
  exists result,
    returns (compute_sync np_corrcoef01 circcorrcoef cs (Interned (literal m)) true true)
            result
    /\ shape result = [Fq; Ch; Ch]%nat
    /\ forall f i j,
        item result [f; i; j]%nat
        = nanmean (map (fun e => item (per_epoch_array np_corrcoef01 circcorrcoef
                                                        m cs Fq E Ch)
                                      [f; e; i; j]%nat)
                       (range E)).
Proof.
  intros Hs HE HC HF.
  pose proof (per_epoch_array_shape np_corrcoef01 circcorrcoef m cs HF HE HC) as Hsh.
  exists (nanmean_axis1 (per_epoch_array np_corrcoef01 circcorrcoef m cs Fq E Ch)).
  split; [|split].
  - apply (per_epoch_continues np_corrcoef01 circcorrcoef m cs true Hs).
    eapply np_nanmean_axis1_returns. exact Hsh.
  - unfold nanmean_axis1. cbn [shape]. rewrite Hsh. reflexivity.
  - intros f i j. unfold nanmean_axis1. cbn [item]. rewrite Hsh. reflexivity.
Qed.








(** ** The analytic-signal builder *)

Lemma returns_call {A} (name : string) (a : A) : returns (call name (inr a)) a.
Proof. exists [Decomposition name]. reflexivity. Qed.

Lemma shape_at_returns {V} (a : ndarray V) (k d : nat) :
  nth_error (shape a) k = Some d -> returns (shape_at a k) d.
Proof. intros Hk. unfold shape_at. rewrite Hk. apply returns_ret. Qed.

Lemma py_index_returns {A} (l : list A) (k : nat) (x : A) :
  nth_error l k = Some x -> returns (py_index l k) x.
Proof. intros Hk. unfold py_index. rewrite Hk. apply returns_ret. Qed.

(** A comprehension whose body returns, for each element, some value with
    a property, returns a list of such values, in order. *)
Lemma returns_for_each {A B} (f : A -> M B) (P : A -> B -> Prop) (l : list A) :
  (forall x, In x l -> exists b, returns (f x) b /\ P x b) ->
  exists bs, returns (for_ l f) bs /\ Forall2 P l bs.
Proof.
  induction l as [|x l IH]; intros Hf.
  - exists []. split; [apply returns_ret|constructor].
  - destruct (Hf x (or_introl eq_refl)) as [b [Hb HP]].
    destruct IH as [bs [Hbs HPs]]; [intros y Hy; apply Hf; right; exact Hy|].
    exists (b :: bs). split; [|constructor; assumption].
    simpl. eapply returns_bind; [exact Hb|].
    eapply returns_bind; [exact Hbs|]. apply returns_ret.
Qed.

Lemma np_stack_returns {V} `{Dflt V} (a : ndarray V) (l : list (ndarray V))
      (sh : list nat) :
  Forall (fun b => shape b = sh) (a :: l) ->
  returns (np_stack (a :: l)) (stacked a (a :: l)).
Proof.
  intros Hall. unfold np_stack.
  assert (Hcheck : forallb (fun b => if list_eq_dec Nat.eq_dec (shape a) (shape b)
                                     then true else false) (a :: l) = true).
  { apply forallb_forall. intros b Hb.
    rewrite Forall_forall in Hall.
    rewrite (Hall a (or_introl eq_refl)), (Hall b Hb).
    destruct (list_eq_dec Nat.eq_dec sh sh); [reflexivity|contradiction]. }
  rewrite Hcheck. apply returns_ret.
Qed.

Lemma length_np_arange (lo hi : Z) :
  List.length (np_arange lo hi) = Z.to_nat (hi - lo).
Proof. unfold np_arange, range. rewrite length_map, length_seq. reflexivity. Qed.

(** The engine on a well-formed signal with at least one epoch, channel
    and frequency: it returns, with the documented shape. *)
Lemma compute_sync_shape
      (np_corrcoef01 circcorrcoef : list npfloat -> list npfloat -> npfloat)
      (cs : ndarray complex) (m : metric_name) (E Ch Fq S : nat) (ew tr : bool) :
  shape cs = [2; E; Ch; Fq; S]%nat ->
  (0 < E)%nat -> (0 < Ch)%nat -> (0 < Fq)%nat ->
  exists result,
    returns (compute_sync np_corrcoef01 circcorrcoef cs (Interned (literal m)) ew tr)
            result
    /\ shape result = if ew && negb tr then [Fq; E; Ch; Ch]%nat else [Fq; Ch; Ch]%nat.
Proof.
  intros Hs HE HC HF. destruct ew; [destruct tr|].
  - destruct (time_resolved_entry np_corrcoef01 circcorrcoef cs m Hs HE HC HF)
      as [result [Hr [Hsh _]]].
    exists result. split; assumption.
  - exists (per_epoch_array np_corrcoef01 circcorrcoef m cs Fq E Ch). split.
    + apply per_epoch_returns with (S := S). exact Hs.
    + apply per_epoch_array_shape; assumption.
  - exists (concatenated_array np_corrcoef01 circcorrcoef m cs Fq Ch). split.
    + apply concatenated_returns with (E := E) (S := S); assumption.
    + apply concatenated_array_shape; assumption.
Qed.

Section BuilderFacts.

Variable tfr_array_multitaper :
  ndarray npfloat -> nat -> list Z -> string + ndarray complex.
Variable filter_data :
  ndarray npfloat -> nat -> Z -> Z -> string + ndarray npfloat.
Variable hilbert : ndarray npfloat -> string + ndarray complex.
Variable np_corrcoef01 : list npfloat -> list npfloat -> npfloat.
Variable circcorrcoef : list npfloat -> list npfloat -> npfloat.

(** The collaborators' contracts: the decomposition of an (epochs,
    channels, samples) tensor is (epochs, channels, frequencies, samples);
    the filter and the Hilbert transform keep the shape. *)
Hypothesis tfr_contract :
  forall x sfreq freqs E Ch S,
    shape x = [E; Ch; S] ->
    exists y, tfr_array_multitaper x sfreq freqs = inr y
              /\ shape y = [E; Ch; List.length freqs; S].
Hypothesis filter_contract :
  forall x sfreq lo hi,
    exists y, filter_data x sfreq lo hi = inr y /\ shape y = shape x.
Hypothesis hilbert_contract :
  forall x, exists y, hilbert x = inr y /\ shape y = shape x.

Variables (d0 d1 : ndarray npfloat) (E Ch S : nat).
Hypothesis shape_d0 : shape d0 = [E; Ch; S].
Hypothesis shape_d1 : shape d1 = [E; Ch; S].

Lemma compute_single_freq_returns (f0 f1 : Z) :
  exists cs,
    returns (compute_single_freq tfr_array_multitaper (d0, d1) [f0; f1]) cs
    /\ shape cs = [2; E; Ch; Z.to_nat (f1 - f0); S]%nat.
Proof.
  destruct (tfr_contract d0 S (np_arange f0 f1) shape_d0) as [y0 [Hy0 Hs0]].
  destruct (tfr_contract d1 S (np_arange f0 f1) shape_d1) as [y1 [Hy1 Hs1]].
  rewrite length_np_arange in Hs0, Hs1.
  exists (stacked y0 [y0; y1]). split.
  - unfold compute_single_freq.
    eapply returns_bind.
    { apply shape_at_returns. cbn [subject fst]. rewrite shape_d0. reflexivity. }
    eapply returns_bind with (a := [y0; y1]).
    + cbn [range seq for_ subject fst snd].
      eapply returns_bind.
      { eapply returns_bind; [apply py_index_returns; reflexivity|].
        eapply returns_bind; [apply py_index_returns; reflexivity|].
        rewrite Hy0. apply returns_call. }
      eapply returns_bind; [|apply returns_ret].
      eapply returns_bind.
      { eapply returns_bind; [apply py_index_returns; reflexivity|].
        eapply returns_bind; [apply py_index_returns; reflexivity|].
        rewrite Hy1. apply returns_call. }
      eapply returns_bind; apply returns_ret.
    + apply np_stack_returns with (sh := [E; Ch; Z.to_nat (f1 - f0); S]).
      repeat constructor; assumption.
  - unfold stacked. cbn [shape List.length]. rewrite Hs0. reflexivity.
Qed.

Lemma band_signal_returns (data : ndarray npfloat) (band : list Z) :
  shape data = [2; E; Ch; S]%nat ->
  (2 <= List.length band)%nat ->
  exists h,
    returns (band_signal filter_data hilbert data S band) h
    /\ shape h = [2; E; Ch; S]%nat.
Proof.
  intros Hs Hband.
  destruct band as [|lo [|hi rest]]; [simpl in Hband; lia|simpl in Hband; lia|].
  destruct (filter_contract (np_sub data 0) S lo hi) as [y0 [Hy0 Hs0]].
  destruct (filter_contract (np_sub data 1) S lo hi) as [y1 [Hy1 Hs1]].
  cbn [np_sub shape] in Hs0, Hs1. rewrite Hs in Hs0, Hs1. cbn [tl] in Hs0, Hs1.
  destruct (hilbert_contract (stacked y0 [y0; y1])) as [h [Hh Hsh]].
  exists h. split.
  - unfold band_signal.
    eapply returns_bind with (a := [y0; y1]).
    + cbn [range seq for_].
      eapply returns_bind.
      { eapply returns_bind.
        { unfold np_index0. rewrite Hs. apply returns_ret. }
        eapply returns_bind; [apply py_index_returns; reflexivity|].
        eapply returns_bind; [apply py_index_returns; reflexivity|].
        rewrite Hy0. apply returns_call. }
      eapply returns_bind; [|apply returns_ret].
      eapply returns_bind.
      { eapply returns_bind.
        { unfold np_index0. rewrite Hs. apply returns_ret. }
        eapply returns_bind; [apply py_index_returns; reflexivity|].
        eapply returns_bind; [apply py_index_returns; reflexivity|].
        rewrite Hy1. apply returns_call. }
      eapply returns_bind; apply returns_ret.
    + eapply returns_bind.
      { apply np_stack_returns with (sh := [E; Ch; S]).
        repeat constructor; assumption. }
      rewrite Hh. apply returns_call.
  - rewrite Hsh. unfold stacked. cbn [shape List.length]. rewrite Hs0. reflexivity.
Qed.

Lemma compute_freq_bands_returns (freq_bands : list (str * list Z)) :
  freq_bands <> [] ->
  Forall (fun band => (2 <= List.length (snd band))%nat) freq_bands ->
  exists cs,
    returns (compute_freq_bands filter_data hilbert (d0, d1) freq_bands) cs
    /\ shape cs = [2; E; Ch; List.length freq_bands; S]%nat
    /\ forall b band h,
        nth_error (map snd freq_bands) b = Some band ->
        returns (band_signal filter_data hilbert (stacked d0 [d0; d1]) S band) h ->
        forall s e c t, item cs [s; e; c; b; t]%nat = item h [s; e; c; t]%nat.
Proof.
  intros Hne Hbands.
  assert (Hdata : shape (stacked d0 [d0; d1]) = [2; E; Ch; S]%nat).
  { unfold stacked. cbn [shape List.length]. rewrite shape_d0. reflexivity. }
  destruct (returns_for_each
              (band_signal filter_data hilbert (stacked d0 [d0; d1]) S)
              (fun band h =>
                 shape h = [2; E; Ch; S]%nat
                 /\ returns (band_signal filter_data hilbert (stacked d0 [d0; d1]) S band) h)
              (map snd freq_bands)) as [hs [Hhs Hall]].
  { intros band Hin. apply in_map_iff in Hin. destruct Hin as [p [<- Hp]].
    rewrite Forall_forall in Hbands.
    destruct (@band_signal_returns (stacked d0 [d0; d1]) (snd p) Hdata (Hbands p Hp))
      as [h [Hh Hsh]].
    exists h. split; [exact Hh|]. split; assumption. }
  assert (Hlen : List.length hs = List.length freq_bands).
  { apply Forall2_length in Hall. rewrite length_map in Hall. symmetry. exact Hall. }
  destruct hs as [|h0 hs'].
  { destruct freq_bands; [contradiction|discriminate Hlen]. }
  assert (Hshapes : Forall (fun h => shape h = [2; E; Ch; S]%nat) (h0 :: hs')).
  { clear -Hall. induction Hall as [|band h l l' [Hsh _] _ IH]; constructor; assumption. }
  assert (Hh0 : shape h0 = [2; E; Ch; S]%nat) by (inversion Hshapes; assumption).
  assert (Hmoved : shape (moved_0_3 (stacked h0 (h0 :: hs')))
                   = [2; E; Ch; List.length freq_bands; S]%nat).
  { unfold moved_0_3, stacked. cbn [shape]. rewrite Hh0, Hlen. reflexivity. }
  exists (moved_0_3 (stacked h0 (h0 :: hs'))). split; [|split].
  - unfold compute_freq_bands. cbn [subject fst snd].
    eapply returns_bind; [apply shape_at_returns; rewrite shape_d0; reflexivity|].
    eapply returns_bind; [apply shape_at_returns; rewrite shape_d1; reflexivity|].
    rewrite Nat.eqb_refl.
    eapply returns_bind; [apply returns_ret|].
    eapply returns_bind; [apply shape_at_returns; rewrite shape_d0; reflexivity|].
    eapply returns_bind; [apply shape_at_returns; rewrite shape_d0; reflexivity|].
    eapply returns_bind; [apply shape_at_returns; rewrite shape_d0; reflexivity|].
    eapply returns_bind.
    { apply np_stack_returns with (sh := [E; Ch; S]).
      repeat constructor; assumption. }
    eapply returns_bind; [exact Hhs|].
    eapply returns_bind.
    { apply np_stack_returns with (sh := [2; E; Ch; S]%nat). exact Hshapes. }
    eapply returns_bind with (a := moved_0_3 (stacked h0 (h0 :: hs'))).
    { unfold np_moveaxis_0_3.
      replace (ndim (stacked h0 (h0 :: hs'))) with 5%nat; [apply returns_ret|].
      unfold ndim, stacked. cbn [shape]. rewrite Hh0. reflexivity. }
    rewrite Hmoved.
    destruct (list_eq_dec Nat.eq_dec _ _) as [_|Hbad]; [|contradiction].
    eapply returns_bind; apply returns_ret.
  - exact Hmoved.
  - intros b band h Hb Hh s e c t.
    unfold moved_0_3, stacked. cbn [item].
    assert (Hnth : exists h', nth_error (h0 :: hs') b = Some h'
                              /\ returns (band_signal filter_data hilbert
                                                      (stacked d0 [d0; d1]) S band) h').
    { clear -Hall Hb. revert b Hb.
      induction Hall as [|band' h' l l' [_ Hr] _ IH]; intros b Hb.
      - destruct b; discriminate Hb.
      - destruct b as [|b].
        + injection Hb as <-. exists h'. split; [reflexivity|exact Hr].
        + apply IH. exact Hb. }
    destruct Hnth as [h' [Hnth Hr']].
    rewrite (returns_inj Hh Hr').
    rewrite (nth_error_nth _ _ h0 Hnth). reflexivity.
Qed.

(** The facade on a built signal. *)
Lemma simple_corr_continues (frequencies : obj) (cs : ndarray complex)
      (mode : str) (ew tr : bool) (result : ndarray npfloat) :
  returns (match frequencies with
           | PyList l => v <- compute_single_freq tfr_array_multitaper (d0, d1) l ;;
                         ret (Some v)
           | PyDict d => v <- compute_freq_bands filter_data hilbert (d0, d1) d ;;
                         ret (Some v)
           | _ => ret None
           end) (Some cs) ->
  returns (compute_sync np_corrcoef01 circcorrcoef cs mode ew tr) result ->
  returns (simple_corr tfr_array_multitaper filter_data hilbert np_corrcoef01
                       circcorrcoef (d0, d1) frequencies mode ew tr) result.
Proof.
  intros Hv Hr. unfold simple_corr. cbn [subject fst snd].
  eapply returns_bind; [apply shape_at_returns; rewrite shape_d0; reflexivity|].
  eapply returns_bind; [apply shape_at_returns; rewrite shape_d1; reflexivity|].
  rewrite Nat.eqb_refl.
  eapply returns_bind; [apply returns_ret|].
  eapply returns_bind; [exact Hv|]. exact Hr.
Qed.

(** The shape law where the documentation holds.  For collaborators
    that honour their shape contracts
    and a mode that the dispatch accepts: with a discrete range [f0, f1),
    f0 < f1, the frequency axis of the analytic signal has length f1 - f0;
    with k >= 1 named bands it has length k and its b-th position holds
    the b-th band of the mapping's iteration order; and when the
    recordings have at least one epoch and one channel the result has
    shape (n_freq, n_epochs, n_channels, n_channels) when per_epoch=True
    and time_resolved=False, and (n_freq, n_channels, n_channels)
    otherwise, with n_freq that same length. *)
Theorem frequency_axis_and_result_shape (mode : str) (m : metric_name)
        (ew tr : bool) :
  selects mode m ->
  (forall f0 f1 : Z,
      (f0 < f1)%Z ->
      exists (nf : nat) (cs : ndarray complex),
        Z.of_nat nf = (f1 - f0)%Z
        /\ returns (compute_single_freq tfr_array_multitaper (d0, d1) [f0; f1]) cs
        /\ shape cs = [2; E; Ch; nf; S]%nat
        /\ ((0 < E)%nat -> (0 < Ch)%nat ->
            exists result,
              returns (simple_corr tfr_array_multitaper filter_data hilbert
                                   np_corrcoef01 circcorrcoef (d0, d1)
                                   (PyList [f0; f1]) mode ew tr) result
              /\ shape result = if ew && negb tr then [nf; E; Ch; Ch]%nat
                                else [nf; Ch; Ch]%nat))
  /\ (forall freq_bands : list (str * list Z),
         freq_bands <> [] ->
         Forall (fun band => (2 <= List.length (snd band))%nat) freq_bands ->
         exists cs : ndarray complex,
           returns (compute_freq_bands filter_data hilbert (d0, d1) freq_bands) cs
           /\ shape cs = [2; E; Ch; List.length freq_bands; S]%nat
           /\ (forall b band h,
                  nth_error (map snd freq_bands) b = Some band ->
                  returns (band_signal filter_data hilbert (stacked d0 [d0; d1]) S band) h ->
                  forall s e c t, item cs [s; e; c; b; t]%nat = item h [s; e; c; t]%nat)
           /\ ((0 < E)%nat -> (0 < Ch)%nat ->
               exists result,
                 returns (simple_corr tfr_array_multitaper filter_data hilbert
                                      np_corrcoef01 circcorrcoef (d0, d1)
                                      (PyDict freq_bands) mode ew tr) result
                 /\ shape result = if ew && negb tr
                                   then [List.length freq_bands; E; Ch; Ch]%nat
                                   else [List.length freq_bands; Ch; Ch]%nat)).
Proof.
  intros Hm. apply is_lit in Hm. subst mode. split.
  - intros f0 f1 Hlt.
    destruct (compute_single_freq_returns f0 f1) as [cs [Hcs Hsh]].
    exists (Z.to_nat (f1 - f0)), cs.
    split; [lia|]. split; [exact Hcs|]. split; [exact Hsh|].
    intros HE HC.
    destruct (compute_sync_shape np_corrcoef01 circcorrcoef cs m ew tr Hsh HE HC)
      as [result [Hr Hrs]]; [lia|].
    exists result. split; [|exact Hrs].
    apply simple_corr_continues with (cs := cs); [|exact Hr].
    eapply returns_bind; [exact Hcs|apply returns_ret].
  - intros freq_bands Hne Hbands.
    destruct (compute_freq_bands_returns Hne Hbands) as [cs [Hcs [Hsh Horder]]].
    exists cs.
    split; [exact Hcs|]. split; [exact Hsh|]. split; [exact Horder|].
    intros HE HC.
    destruct (compute_sync_shape np_corrcoef01 circcorrcoef cs m ew tr Hsh HE HC)
      as [result [Hr Hrs]].
    { destruct freq_bands; [contradiction|simpl; lia]. }
    exists result. split; [|exact Hrs].
    apply simple_corr_continues with (cs := cs); [|exact Hr].
    eapply returns_bind; [exact Hcs|apply returns_ret].
Qed.

End BuilderFacts.

(** The scenario of one epoch, two channels, a hundred samples,
    frequencies [8, 10), envelope correlation averaged over epochs. *)
Lemma frequency_axis_and_result_shape_witness :
  exists (nf : nat) (cs : ndarray complex),
    Z.of_nat nf = (10 - 8)%Z
    /\ returns (compute_single_freq tfr_zero (recording 1 2 100 0, recording 1 2 100 0)
                                    [8; 10]%Z) cs
    /\ shape cs = [2; 1; 2; nf; 100]%nat
    /\ ((0 < 1)%nat -> (0 < 2)%nat ->
        exists result,
          returns (simple_corr tfr_zero filter_all_pass hilbert_real no_statistic
                               no_statistic (recording 1 2 100 0, recording 1 2 100 0)
                               (PyList [8; 10]%Z) (lit "envelope") true true) result
          /\ shape result = [nf; 2; 2]%nat).
Proof.
  refine (proj1 (@frequency_axis_and_result_shape
                   tfr_zero filter_all_pass hilbert_real no_statistic no_statistic
                   _ _ _ (recording 1 2 100 0) (recording 1 2 100 0) 1 2 100 _ _
                   (lit "envelope") Envelope true true _) 8%Z 10%Z _).
  - intros x sfreq freqs E Ch S Hx. eexists. split; [reflexivity|].
    simpl. rewrite Hx. reflexivity.
  - intros x sfreq lo hi. eexists. split; reflexivity.
  - intros x. eexists. split; reflexivity.
  - reflexivity.
  - reflexivity.
  - reflexivity.
  - lia.
Defined.

(** C4.  The result shape is not the documented one when both streams
    have no epoch (0 epochs, 2 channels, frequencies [8, 10)): the
    per-epoch result without averaging has shape (2, 0), where the
    docstrings of [simple_corr] and [compute_sync] and the comments of the
    comprehensions state (n_freq, n_epochs, n_channels, n_channels), here
    (2, 0, 2, 2); [np.array] finds no further axis in a list of empty
    lists. *)
Lemma result_shape_without_epochs :
  result_shape (simple_corr tfr_zero filter_all_pass hilbert_real no_statistic
                            no_statistic (recording 0 2 100 0, recording 0 2 100 0)
                            (PyList [8; 10]%Z) (lit "envelope") true false)
  = inr [2; 0]%nat
  /\ [2; 0]%nat <> [2; 0; 2; 2]%nat.
Proof.
  split; [vm_compute; reflexivity|discriminate].
Qed.

(** * Further properties of the module *)

(** ** Edge behaviour of the builder and of the facade *)

Lemma returns_bind_inv {A B} (m : M A) (k : A -> M B) (b : B) :
  returns (bind m k) b -> exists a, returns m a /\ returns (k a) b.
Proof.
  destruct m as [l [e|a]]; simpl; intros [lg Hb]; [discriminate Hb|].
  destruct (k a) as [l' r] eqn:Hka. injection Hb as _ ->.
  exists a. split; [exists l; reflexivity|exists l'; exact Hka].
Qed.

Lemma shape_at_returns_inv {V} (a : ndarray V) (k d : nat) :
  returns (shape_at a k) d -> nth_error (shape a) k = Some d.
Proof.
  unfold shape_at. destruct (nth_error (shape a) k) as [d'|]; intros [lg Hd].
  - injection Hd as _ ->. reflexivity.
  - discriminate Hd.
Qed.

Lemma assert_returns_inv (cond : bool) (line : nat) (msg : string) :
  returns (assert_ cond line msg) tt -> cond = true.
Proof.
  unfold assert_. destruct cond; intros [lg Hc]; [reflexivity|discriminate Hc].
Qed.

(** Whatever the filter and the Hilbert transform answer, a tensor that
    the band builder returns has shape (2, epochs, channels, bands,
    samples), with the counts of subject 0's recording: the assertion
    after [np.moveaxis] lets nothing else through. *)
Theorem band_builder_only_returns_documented_shape
        (filter_data : ndarray npfloat -> nat -> Z -> Z -> string + ndarray npfloat)
        (hilbert : ndarray npfloat -> string + ndarray complex)
        (data : dyad) (freq_bands : list (str * list Z)) (cs : ndarray complex) :
  returns (compute_freq_bands filter_data hilbert data freq_bands) cs ->
  exists E Ch S,
    nth_error (shape (subject data 0)) 0 = Some E
    /\ nth_error (shape (subject data 0)) 1 = Some Ch
    /\ nth_error (shape (subject data 0)) 2 = Some S
    /\ shape cs = [2; E; Ch; List.length freq_bands; S]%nat.
Proof.
  unfold compute_freq_bands. intros Hr.
  apply returns_bind_inv in Hr. destruct Hr as [e0 [_ Hr]].
  apply returns_bind_inv in Hr. destruct Hr as [e1 [_ Hr]].
  apply returns_bind_inv in Hr. destruct Hr as [[] [_ Hr]].
  apply returns_bind_inv in Hr. destruct Hr as [E [HE%shape_at_returns_inv Hr]].
  apply returns_bind_inv in Hr. destruct Hr as [Ch [HC%shape_at_returns_inv Hr]].
  apply returns_bind_inv in Hr. destruct Hr as [S [HS%shape_at_returns_inv Hr]].
  apply returns_bind_inv in Hr. destruct Hr as [data' [_ Hr]].
  apply returns_bind_inv in Hr. destruct Hr as [signals [_ Hr]].
  apply returns_bind_inv in Hr. destruct Hr as [stack [_ Hr]].
  apply returns_bind_inv in Hr. destruct Hr as [moved [_ Hr]].
  apply returns_bind_inv in Hr. destruct Hr as [[] [Hassert Hr]].
  apply assert_returns_inv in Hassert.
  destruct (list_eq_dec Nat.eq_dec _ _) as [Hshape|_]; [|discriminate Hassert].
  exists E, Ch, S. repeat split; try assumption.
  destruct Hr as [lg Hr]. injection Hr as _ <-. exact Hshape.
Qed.

Lemma band_builder_only_returns_documented_shape_witness :
  exists cs,
    returns (compute_freq_bands filter_all_pass hilbert_real
                                (recording 1 2 3 0, recording 1 2 3 0)
                                [(lit "alpha", [8; 12]%Z); (lit "beta", [12; 20]%Z)]) cs
    /\ shape cs = [2; 1; 2; 2; 3]%nat.
Proof.
  eexists. split.
  - eexists. reflexivity.
  - match goal with
    | |- shape ?cs = _ =>
        destruct (@band_builder_only_returns_documented_shape
                    filter_all_pass hilbert_real
                    (recording 1 2 3 0, recording 1 2 3 0)
                    [(lit "alpha", [8; 12]%Z); (lit "beta", [12; 20]%Z)] cs)
          as [E [Ch [S [HE [HC [HS Hshape]]]]]]
    end.
    + eexists. reflexivity.
    + injection HE as <-. injection HC as <-. injection HS as <-. exact Hshape.
Defined.

Section FacadeEdges.

Variable tfr_array_multitaper :
  ndarray npfloat -> nat -> list Z -> string + ndarray complex.
Variable filter_data :
  ndarray npfloat -> nat -> Z -> Z -> string + ndarray npfloat.
Variable hilbert : ndarray npfloat -> string + ndarray complex.
Variable np_corrcoef01 : list npfloat -> list npfloat -> npfloat.
Variable circcorrcoef : list npfloat -> list npfloat -> npfloat.

Variables (d0 d1 : ndarray npfloat) (E Ch S : nat).
Hypothesis shape_d0 : shape d0 = [E; Ch; S].
Hypothesis shape_d1 : shape d1 = [E; Ch; S].

(** [np.array(data)[0]] is subject 0's recording again. *)
Lemma np_index0_stacked_head (a : ndarray npfloat) (l : list (ndarray npfloat)) :
  np_index0 (stacked a (a :: l)) 0 = ret a.
Proof. destruct a as [sh it]. reflexivity. Qed.

Lemma facade_prefix (frequencies : obj) (mode : str) (ew tr : bool) :
  simple_corr tfr_array_multitaper filter_data hilbert np_corrcoef01 circcorrcoef
              (d0, d1) frequencies mode ew tr
  = (values <- match frequencies with
               | PyList l => v <- compute_single_freq tfr_array_multitaper (d0, d1) l ;;
                             ret (Some v)
               | PyDict d => v <- compute_freq_bands filter_data hilbert (d0, d1) d ;;
                             ret (Some v)
               | _ => ret None
               end ;;
     match values with
     | Some v => compute_sync np_corrcoef01 circcorrcoef v mode ew tr
     | None => raise (UnboundLocalError "values")
     end).
Proof.
  unfold simple_corr, shape_at. cbn [subject fst snd].
  rewrite shape_d0, shape_d1. cbn [nth_error]. rewrite !bind_ret, Nat.eqb_refl.
  unfold assert_. rewrite bind_ret. reflexivity.
Qed.

(** An empty band mapping is not a documented failure: the list of band
    signals is empty, [np.array([])] is 1-D and [np.moveaxis] raises
    [AxisError], before any filtering. *)
Theorem empty_band_mapping_is_axis_error (mode : str) (ew tr : bool) :
  compute_freq_bands filter_data hilbert (d0, d1) [] = ([], inl AxisError)
  /\ simple_corr tfr_array_multitaper filter_data hilbert np_corrcoef01 circcorrcoef
                 (d0, d1) (PyDict []) mode ew tr
     = ([], inl AxisError).
Proof.
  assert (Hb : compute_freq_bands filter_data hilbert (d0, d1) [] = ([], inl AxisError)).
  { unfold compute_freq_bands, shape_at. cbn [subject fst snd].
    rewrite shape_d0, shape_d1. cbn [nth_error]. rewrite !bind_ret, Nat.eqb_refl.
    unfold assert_ at 1. rewrite bind_ret.
    unfold np_stack. cbn [forallb]. rewrite shape_d0, shape_d1.
    destruct (list_eq_dec Nat.eq_dec [E; Ch; S] [E; Ch; S]) as [_|Hne];
      [|contradiction].
    cbn [andb]. rewrite bind_ret. reflexivity. }
  split; [exact Hb|]. rewrite facade_prefix, Hb. reflexivity.
Qed.

(** A frequency list with fewer than two entries fails with [IndexError]
    when [freq_range[0]] or [freq_range[1]] is read, before the
    decomposition is called. *)
Theorem short_frequency_list_is_index_error (freq_range : list Z)
        (mode : str) (ew tr : bool) :
  (List.length freq_range < 2)%nat ->
  compute_single_freq tfr_array_multitaper (d0, d1) freq_range = ([], inl IndexError)
  /\ simple_corr tfr_array_multitaper filter_data hilbert np_corrcoef01 circcorrcoef
                 (d0, d1) (PyList freq_range) mode ew tr
     = ([], inl IndexError).
Proof.
  intros Hlen.
  assert (Hb : compute_single_freq tfr_array_multitaper (d0, d1) freq_range
               = ([], inl IndexError)).
  { unfold compute_single_freq, shape_at. cbn [subject fst snd].
    rewrite shape_d0. cbn [nth_error]. rewrite bind_ret.
    destruct freq_range as [|lo [|hi rest]]; [reflexivity|reflexivity|].
    simpl in Hlen. lia. }
  split; [exact Hb|]. rewrite facade_prefix, Hb. reflexivity.
Qed.

(** A failure of the decomposition on subject 0 ends the call with that
    very failure: the trace holds the one call that failed, subject 1 is
    never decomposed and no metric is evaluated. *)
Theorem decomposition_failure_propagates (f0 f1 : Z) (msg : string)
        (mode : str) (ew tr : bool) :
  tfr_array_multitaper d0 S (np_arange f0 f1) = inl msg ->
  simple_corr tfr_array_multitaper filter_data hilbert np_corrcoef01 circcorrcoef
              (d0, d1) (PyList [f0; f1]) mode ew tr
  = ([Decomposition "tfr_array_multitaper"], inl (External msg)).
Proof.
  intros Hfail. rewrite facade_prefix.
  unfold compute_single_freq, shape_at. cbn [subject fst snd].
  rewrite shape_d0. cbn [nth_error]. rewrite bind_ret.
  cbn [range seq for_ subject fst py_index nth_error]. rewrite !bind_ret.
  rewrite Hfail. reflexivity.
Qed.

(** The same on the band path: when the filter fails on subject 0's
    recording for the first band, nothing else is called. *)
Theorem filter_failure_propagates (name : str) (lo hi : Z)
        (others : list (str * list Z)) (msg : string) (mode : str) (ew tr : bool) :
  filter_data d0 S lo hi = inl msg ->
  simple_corr tfr_array_multitaper filter_data hilbert np_corrcoef01 circcorrcoef
              (d0, d1) (PyDict ((name, [lo; hi]) :: others)) mode ew tr
  = ([Decomposition "filter_data"], inl (External msg)).
Proof.
  intros Hfail. rewrite facade_prefix.
  unfold compute_freq_bands, shape_at. cbn [subject fst snd].
  rewrite shape_d0, shape_d1. cbn [nth_error]. rewrite !bind_ret, Nat.eqb_refl.
  unfold assert_ at 1. rewrite bind_ret.
  unfold np_stack. cbn [forallb]. rewrite shape_d0, shape_d1.
  destruct (list_eq_dec Nat.eq_dec [E; Ch; S] [E; Ch; S]) as [_|Hne];
    [|contradiction].
  cbn [andb]. rewrite bind_ret.
  cbn [map snd for_]. unfold band_signal at 1.
  cbn [range seq for_]. rewrite np_index0_stacked_head, bind_ret.
  cbn [py_index nth_error]. rewrite !bind_ret.
  rewrite Hfail. reflexivity.
Qed.

End FacadeEdges.

Lemma short_frequency_list_is_index_error_witness :
  simple_corr tfr_zero filter_all_pass hilbert_real no_statistic no_statistic
              (recording 1 2 3 0, recording 1 2 3 0) (PyList [8]%Z) (lit "plv") true true
  = ([], inl IndexError).
Proof.
  refine (proj2 (@short_frequency_list_is_index_error
                   tfr_zero filter_all_pass hilbert_real no_statistic no_statistic
                   (recording 1 2 3 0) (recording 1 2 3 0) 1 2 3 _ _
                   [8]%Z (lit "plv") true true _)).
  - reflexivity.
  - reflexivity.
  - simpl. lia.
Defined.

Lemma empty_band_mapping_is_axis_error_witness :
  simple_corr tfr_zero filter_all_pass hilbert_real no_statistic no_statistic
              (recording 1 2 3 0, recording 1 2 3 0) (PyDict []) (lit "plv") true true
  = ([], inl AxisError).
Proof.
  refine (proj2 (@empty_band_mapping_is_axis_error
                   tfr_zero filter_all_pass hilbert_real no_statistic no_statistic
                   (recording 1 2 3 0) (recording 1 2 3 0) 1 2 3 _ _
                   (lit "plv") true true)); reflexivity.
Defined.

Lemma decomposition_failure_propagates_witness :
  simple_corr tfr_down filter_down hilbert_down no_statistic no_statistic
              (recording 1 2 3 0, recording 1 2 3 0) (PyList [8; 10]%Z)
              (lit "plv") true true
  = ([Decomposition "tfr_array_multitaper"], inl (External "unavailable")).
Proof.
  refine (@decomposition_failure_propagates
            tfr_down filter_down hilbert_down no_statistic no_statistic
            (recording 1 2 3 0) (recording 1 2 3 0) 1 2 3 _ _
            8%Z 10%Z "unavailable" (lit "plv") true true _); reflexivity.
Defined.

Lemma filter_failure_propagates_witness :
  simple_corr tfr_down filter_down hilbert_down no_statistic no_statistic
              (recording 1 2 3 0, recording 1 2 3 0)
              (PyDict [(lit "alpha", [8; 12]%Z); (lit "beta", [12; 20]%Z)])
              (lit "plv") true true
  = ([Decomposition "filter_data"], inl (External "unavailable")).
Proof.
  refine (@filter_failure_propagates
            tfr_down filter_down hilbert_down no_statistic no_statistic
            (recording 1 2 3 0) (recording 1 2 3 0) 1 2 3 _ _
            (lit "alpha") 8%Z 12%Z [(lit "beta", [12; 20]%Z)] "unavailable"
            (lit "plv") true true _).
  - reflexivity.
  - reflexivity.
  - reflexivity.
Defined.

(** ** Degenerate sizes in the engine *)

Lemma outcome_bind_returns {A B} (m : M A) (k : A -> M B) (a : A) :
  returns m a -> outcome (bind m k) = outcome (k a).
Proof.
  intros [lg ->]. simpl. unfold outcome. destruct (k a). reflexivity.
Qed.

(** What the per-epoch branch of an accepted mode ends with is what the
    reduction step ends with on the assembled array. *)
Lemma per_epoch_outcome
      (np_corrcoef01 circcorrcoef : list npfloat -> list npfloat -> npfloat)
      (m : metric_name) (cs : ndarray complex) (E Ch Fq S : nat) (tr : bool) :
  shape cs = [2; E; Ch; Fq; S]%nat ->
  outcome (compute_sync np_corrcoef01 circcorrcoef cs (Interned (literal m)) true tr)
  = outcome (if tr
             then np_nanmean_axis1 (per_epoch_array np_corrcoef01 circcorrcoef m cs Fq E Ch)
             else ret (per_epoch_array np_corrcoef01 circcorrcoef m cs Fq E Ch)).
Proof.
  intros Hs. unfold compute_sync.
  rewrite (compute_sync_dims cs (Interned (literal m)) true tr _ Hs).
  cbv iota.
  rewrite outcome_bind_returns
    with (a := per_epoch_array np_corrcoef01 circcorrcoef m cs Fq E Ch);
    [reflexivity|].
  destruct m; cbn [literal]; decide_is; cbn [per_epoch_array];
    try (eapply returns_bind; [apply returns_pre|]);
    eapply per_epoch_grid_returns; exact Hs.
Qed.

(** With no epoch the concatenated branch has nothing to concatenate:
    for every accepted mode it ends with numpy's [ValueError], whatever
    time_resolved is. *)
Theorem concatenated_without_epochs_is_value_error
        (np_corrcoef01 circcorrcoef : list npfloat -> list npfloat -> npfloat)
        (cs : ndarray complex) (mode : str) (m : metric_name)
        (Ch Fq S : nat) (tr : bool) :
  shape cs = [2; 0; Ch; Fq; S]%nat ->
  selects mode m ->
  outcome (compute_sync np_corrcoef01 circcorrcoef cs mode false tr)
  = inl (ValueError "need at least one array to concatenate").
Proof.
  intros Hs Hm. apply is_lit in Hm. subst mode.
  destruct cs as [sh it]. simpl in Hs. subst sh.
  destruct m; reflexivity.
Qed.

Lemma concatenated_without_epochs_is_value_error_witness :
  outcome (compute_sync no_statistic no_statistic
                        (signal 0 2 1 4 (fun _ _ _ _ _ => c_of 1 0))
                        (lit "coh") false true)
  = inl (ValueError "need at least one array to concatenate").
Proof.
  apply (@concatenated_without_epochs_is_value_error no_statistic no_statistic
           (signal 0 2 1 4 (fun _ _ _ _ _ => c_of 1 0)) (lit "coh") Coh 2 1 4 true);
    reflexivity.
Defined.

(** With an empty frequency axis the per-epoch comprehension is an
    empty list.  The call without averaging then returns a 1-D empty
    array, and the averaged call fails with [AxisError]: axis 1 does not
    exist. *)
Theorem empty_frequency_axis_in_the_engine
        (np_corrcoef01 circcorrcoef : list npfloat -> list npfloat -> npfloat)
        (cs : ndarray complex) (mode : str) (m : metric_name) (E Ch S : nat) :
  shape cs = [2; E; Ch; 0; S]%nat ->
  selects mode m ->
  result_shape (compute_sync np_corrcoef01 circcorrcoef cs mode true false)
  = inr [0%nat]
  /\ outcome (compute_sync np_corrcoef01 circcorrcoef cs mode true true)
     = inl AxisError.
Proof.
  intros Hs Hm. apply is_lit in Hm. subst mode. split.
  - unfold result_shape. rewrite (per_epoch_outcome _ _ m cs false Hs).
    destruct m; reflexivity.
  - rewrite (per_epoch_outcome _ _ m cs true Hs).
    destruct m; reflexivity.
Qed.

Lemma empty_frequency_axis_in_the_engine_witness :
  result_shape (compute_sync no_statistic no_statistic
                             (signal 3 2 0 4 (fun _ _ _ _ _ => c_of 1 0))
                             (lit "coh") true false)
  = inr [0%nat]
  /\ outcome (compute_sync no_statistic no_statistic
                           (signal 3 2 0 4 (fun _ _ _ _ _ => c_of 1 0))
                           (lit "coh") true true)
     = inl AxisError.
Proof.
  apply (@empty_frequency_axis_in_the_engine no_statistic no_statistic
           (signal 3 2 0 4 (fun _ _ _ _ _ => c_of 1 0)) (lit "coh") Coh 3 2 4);
    reflexivity.
Defined.

(** ** The coherence metrics instant by instant *)

Lemma vec2_cons {A B C} (f : A -> B -> C) (x : A) (X : list A) (y : B) (Y : list B) :
  vec2 f (x :: X) (y :: Y) = f x y :: vec2 f X Y.
Proof. reflexivity. Qed.

Lemma vec2_app {A B C} (f : A -> B -> C) (X1 X2 : list A) (Y1 Y2 : list B) :
  List.length X1 = List.length Y1 ->
  vec2 f (X1 ++ X2) (Y1 ++ Y2) = vec2 f X1 Y1 ++ vec2 f X2 Y2.
Proof.
  revert Y1. induction X1 as [|x X1 IH]; intros [|y Y1] Hlen;
    try discriminate Hlen; [reflexivity|].
  simpl app. rewrite !vec2_cons, IH by (injection Hlen; trivial). reflexivity.
Qed.

(** [_coh] is the NaN-skipping mean of its instants. *)
Lemma coh_pointwise (X Y : list complex) :
  _coh X Y = nanmean (vec2 coh_instant X Y).
Proof.
  unfold _coh. f_equal. revert Y.
  induction X as [|x X IH]; intros [|y Y]; try reflexivity.
  cbn [map]. rewrite !vec2_cons. cbn [map]. rewrite !vec2_cons. cbn [map].
  rewrite IH. reflexivity.
Qed.

Lemma icoh_pointwise (X Y : list complex) :
  _icoh X Y = nanmean (vec2 icoh_instant X Y).
Proof.
  unfold _icoh. f_equal. revert Y.
  induction X as [|x X IH]; intros [|y Y]; try reflexivity.
  cbn [map]. rewrite !vec2_cons. cbn [map]. rewrite !vec2_cons. cbn [map].
  rewrite IH. reflexivity.
Qed.

Lemma f_lift2_nan_r (op : R -> R -> R) (a : npfloat) : f_lift2 op a NaN = NaN.
Proof. destruct a; reflexivity. Qed.

Lemma c_sub_nan_r (z : complex) : c_sub z c_nan = c_nan.
Proof. unfold c_sub, f_sub. cbn [re im c_nan]. rewrite !f_lift2_nan_r. reflexivity. Qed.

Lemma c_add_nan_r (z : complex) : c_add z c_nan = c_nan.
Proof. unfold c_add, f_add. cbn [re im c_nan]. rewrite !f_lift2_nan_r. reflexivity. Qed.

Lemma c_scale_nan (r : npfloat) : c_scale r c_nan = c_nan.
Proof. destruct r; reflexivity. Qed.

Lemma coh_instant_zero_l (y : complex) : coh_instant (c_of 0 0) y = NaN.
Proof.
  unfold coh_instant. fold (unit_phasor (c_of 0 0)). rewrite unit_phasor_zero.
  change (c_sub c_nan (c_div_real y (c_abs y))) with c_nan.
  change (c_exp (c_mul j1 c_nan)) with c_nan.
  rewrite c_scale_nan. reflexivity.
Qed.

Lemma coh_instant_zero_r (x : complex) : coh_instant x (c_of 0 0) = NaN.
Proof.
  unfold coh_instant. fold (unit_phasor (c_of 0 0)). rewrite unit_phasor_zero.
  rewrite c_sub_nan_r.
  change (c_exp (c_mul j1 c_nan)) with c_nan.
  rewrite c_scale_nan. reflexivity.
Qed.

Lemma icoh_instant_zero_l (y : complex) : icoh_instant (c_of 0 0) y = NaN.
Proof.
  unfold icoh_instant. fold (unit_phasor (c_of 0 0)). rewrite unit_phasor_zero.
  change (c_sub c_nan (c_div_real y (c_abs y))) with c_nan.
  change (c_sin c_nan) with c_nan.
  rewrite c_scale_nan. reflexivity.
Qed.

Lemma icoh_instant_zero_r (x : complex) : icoh_instant x (c_of 0 0) = NaN.
Proof.
  unfold icoh_instant. fold (unit_phasor (c_of 0 0)). rewrite unit_phasor_zero.
  rewrite c_sub_nan_r.
  change (c_sin c_nan) with c_nan.
  rewrite c_scale_nan. reflexivity.
Qed.

Lemma nanmean_skips_nan (A B : list npfloat) :
  nanmean (A ++ NaN :: B) = nanmean (A ++ B).
Proof.
  unfold nanmean, drop_nan. rewrite !filter_app. reflexivity.
Qed.

(** An instant at which either subject's sample is zero does not count:
    coherence and imaginary coherence are the same as for the sequences
    without that instant (the instant's value is 0/0 and [np.nanmean]
    leaves it out). *)
Theorem coherence_leaves_out_zero_instants
        (X1 X2 Y1 Y2 : list complex) (x y : complex) :
  List.length X1 = List.length Y1 ->
  List.length X2 = List.length Y2 ->
  x = c_of 0 0 \/ y = c_of 0 0 ->
  _coh (X1 ++ x :: X2) (Y1 ++ y :: Y2) = _coh (X1 ++ X2) (Y1 ++ Y2)
  /\ _icoh (X1 ++ x :: X2) (Y1 ++ y :: Y2) = _icoh (X1 ++ X2) (Y1 ++ Y2).
Proof.
  intros Hlen _ Hzero.
  rewrite !coh_pointwise, !icoh_pointwise, !vec2_app by exact Hlen.
  rewrite !vec2_cons.
  assert (Hc : coh_instant x y = NaN)
    by (destruct Hzero as [-> | ->];
        [apply coh_instant_zero_l|apply coh_instant_zero_r]).
  assert (Hi : icoh_instant x y = NaN)
    by (destruct Hzero as [-> | ->];
        [apply icoh_instant_zero_l|apply icoh_instant_zero_r]).
  rewrite Hc, Hi, !nanmean_skips_nan. split; reflexivity.
Qed.

Lemma coherence_leaves_out_zero_instants_witness :
  _coh ([c_of 1 0] ++ c_of 0 0 :: [c_of 0 1]) ([c_of 0 1] ++ c_of 1 0 :: [c_of 1 0])
  = _coh ([c_of 1 0] ++ [c_of 0 1]) ([c_of 0 1] ++ [c_of 1 0]).
Proof.
  refine (proj1 (@coherence_leaves_out_zero_instants
                   [c_of 1 0] [c_of 0 1] [c_of 0 1] [c_of 1 0]
                   (c_of 0 0) (c_of 1 0) _ _ _)).
  - reflexivity.
  - reflexivity.
  - left. reflexivity.
Defined.

(** ** The phase locking value *)

Lemma fold_c_add_nan (l : list complex) : fold_left c_add l c_nan = c_nan.
Proof. induction l as [|z l IH]; [reflexivity|]. simpl. exact IH. Qed.

Lemma c_sum_nan (l : list complex) (acc : complex) :
  In c_nan l -> fold_left c_add l acc = c_nan.
Proof.
  revert acc. induction l as [|z l IH]; intros acc Hin; [contradiction|].
  simpl. destruct Hin as [-> | Hin].
  - rewrite c_add_nan_r. apply fold_c_add_nan.
  - apply IH. exact Hin.
Qed.

Lemma vec2_in_l {A B C} (f : A -> B -> C) (X : list A) (Y : list B) (x : A) :
  List.length X = List.length Y -> In x X -> exists y, In (f x y) (vec2 f X Y).
Proof.
  revert Y. induction X as [|x' X IH]; intros [|y' Y] Hlen Hin;
    try discriminate Hlen; [contradiction|].
  rewrite vec2_cons. destruct Hin as [-> | Hin].
  - exists y'. left. reflexivity.
  - destruct (IH Y) as [y Hy]; [injection Hlen; trivial|exact Hin|].
    exists y. right. exact Hy.
Qed.

Lemma vec2_in_r {A B C} (f : A -> B -> C) (X : list A) (Y : list B) (y : B) :
  List.length X = List.length Y -> In y Y -> exists x, In (f x y) (vec2 f X Y).
Proof.
  revert Y. induction X as [|x' X IH]; intros [|y' Y] Hlen Hin;
    try discriminate Hlen; [contradiction|].
  rewrite vec2_cons. destruct Hin as [-> | Hin].
  - exists x'. left. reflexivity.
  - destruct (IH Y) as [x Hx]; [injection Hlen; trivial|exact Hin|].
    exists x. right. exact Hx.
Qed.

Lemma plv_nan_instant (U V : list complex) :
  In c_nan (vec2 c_sub U V) -> _plv U V = NaN.
Proof.
  intros Hin. unfold _plv, c_sum.
  rewrite c_sum_nan; [reflexivity|].
  apply (in_map (c_mul j1)) in Hin. apply (in_map c_exp) in Hin. exact Hin.
Qed.

(** The phase locking value does not skip anything: one zero sample in
    either sequence makes the value of the whole pair [nan]. *)
Theorem plv_is_nan_with_a_zero_sample
        (np_corrcoef01 circcorrcoef : list npfloat -> list npfloat -> npfloat)
        (X Y : list complex) :
  List.length X = List.length Y ->
  In (c_of 0 0) X \/ In (c_of 0 0) Y ->
  apply_metric np_corrcoef01 circcorrcoef Plv X Y = NaN.
Proof.
  intros Hlen Hzero. cbn [apply_metric]. apply plv_nan_instant.
  assert (Hlen' : List.length (map unit_phasor X) = List.length (map unit_phasor Y))
    by (rewrite !length_map; exact Hlen).
  destruct Hzero as [Hin | Hin].
  - apply (in_map unit_phasor) in Hin. rewrite unit_phasor_zero in Hin.
    destruct (@vec2_in_l _ _ _ c_sub _ _ _ Hlen' Hin) as [v Hv]. exact Hv.
  - apply (in_map unit_phasor) in Hin. rewrite unit_phasor_zero in Hin.
    destruct (@vec2_in_r _ _ _ c_sub _ _ _ Hlen' Hin) as [u Hu].
    rewrite c_sub_nan_r in Hu. exact Hu.
Qed.

Lemma plv_is_nan_with_a_zero_sample_witness :
  apply_metric no_statistic no_statistic Plv [c_of 1 0; c_of 0 0] [c_of 0 1; c_of 1 0]
  = NaN.
Proof.
  apply (@plv_is_nan_with_a_zero_sample no_statistic no_statistic
           [c_of 1 0; c_of 0 0] [c_of 0 1; c_of 1 0]).
  - reflexivity.
  - left. right. left. reflexivity.
Defined.

Lemma modulus_positive (a b : R) : a * a + b * b <> 0 -> 0 < sqrt (a * a + b * b).
Proof. intros Hn. apply sqrt_lt_R0. nra. Qed.

Lemma zero_sample (a b : R) : a * a + b * b = 0 -> a = 0 /\ b = 0.
Proof. intros Hz. split; nra. Qed.

(** ** What an accepted mode can still fail with *)

Create HintDb numpy.

Ltac raises_np :=
  repeat first
         [ apply may_raise_ret
         | apply may_raise_tick
         | (apply may_raise_raise; exact I)
         | (apply may_raise_bind; [|intro])
         | (apply may_raise_for; intro)
         | solve [auto with numpy] ].

Section NumpyErrors.

Context {V : Type} `{Dflt V}.

Lemma shape_at_numpy_error (a : ndarray V) (k : nat) :
  may_raise numpy_error (shape_at a k).
Proof. unfold shape_at. destruct (nth_error (shape a) k); raises_np. Qed.

Lemma np_row_numpy_error (a : ndarray V) (idx : list nat) :
  may_raise numpy_error (np_row a idx).
Proof. unfold np_row. destruct (_ && _); raises_np. Qed.

Lemma np_index0_numpy_error (a : ndarray V) (i : nat) :
  may_raise numpy_error (np_index0 a i).
Proof.
  unfold np_index0. destruct (shape a) as [|d sh]; [raises_np|].
  destruct (i <? d)%nat; raises_np.
Qed.

Lemma np_stack_numpy_error (l : list (ndarray V)) :
  may_raise numpy_error (np_stack l).
Proof.
  unfold np_stack. destruct l as [|a l]; [raises_np|].
  destruct (forallb _ _); raises_np.
Qed.

Lemma np_concatenate_axis2_numpy_error (l : list (ndarray V)) :
  may_raise numpy_error (np_concatenate_axis2 l).
Proof.
  unfold np_concatenate_axis2. destruct l as [|a l]; [raises_np|].
  destruct (ndim a =? 3)%nat; raises_np.
Qed.

End NumpyErrors.

#[export] Hint Resolve shape_at_numpy_error np_row_numpy_error
  np_index0_numpy_error np_stack_numpy_error
  np_concatenate_axis2_numpy_error : numpy.

Lemma np_nanmean_axis1_numpy_error (a : ndarray npfloat) :
  may_raise numpy_error (np_nanmean_axis1 a).
Proof.
  unfold np_nanmean_axis1. destruct (shape a) as [|d0 [|d1 rest]]; raises_np.
Qed.

Lemma pre_numpy_error {V W} (f : V -> W) (a : ndarray V) :
  may_raise numpy_error (pre f a).
Proof. unfold pre. raises_np. Qed.

Lemma per_epoch_grid_numpy_error {V} (metric : list V -> list V -> npfloat)
      (values : ndarray V) (Fq E Ch : nat) :
  may_raise numpy_error (per_epoch_grid metric values Fq E Ch).
Proof. unfold per_epoch_grid. raises_np; apply np_row_numpy_error. Qed.

Lemma concat_grid_numpy_error {V} (metric : list V -> list V -> npfloat)
      (strands : ndarray V) (Fq Ch : nat) :
  may_raise numpy_error (concat_grid metric strands Fq Ch).
Proof. unfold concat_grid. raises_np; apply np_row_numpy_error. Qed.

Lemma strands_of_numpy_error {V} `{Dflt V} (values : ndarray V) :
  may_raise numpy_error (strands_of values).
Proof. unfold strands_of. raises_np. Qed.

#[export] Hint Resolve np_nanmean_axis1_numpy_error pre_numpy_error
  per_epoch_grid_numpy_error concat_grid_numpy_error
  strands_of_numpy_error : numpy.

(** For the literal of any of the seven modes, and for an array of at
    most five axes (of any sizes), the engine either returns or fails with
    one of numpy's index, value or axis errors: never with the
    unsupported-metric [NameError] and never with an assertion.  (On more
    than five axes numpy selects sub-arrays where the embedding raises, so
    such arrays are left out.) *)
Theorem accepted_mode_only_fails_in_numpy
        (np_corrcoef01 circcorrcoef : list npfloat -> list npfloat -> npfloat)
        (cs : ndarray complex) (m : metric_name) (ew tr : bool) :
  (ndim cs <= 5)%nat ->
  may_raise (fun x => numpy_error x /\ ~ UnsupportedMetric x /\ ~ InputMismatch x)
            (compute_sync np_corrcoef01 circcorrcoef cs (lit (literal m)) ew tr).
Proof.
  intros _.
  apply may_raise_weaken with (P := numpy_error).
  { intros x Hx. split; [exact Hx|]. split.
    - intros [msg ->]. exact Hx.
    - intros [msg [-> | ->]]; exact Hx. }
  unfold compute_sync. raises_np.
  destruct ew.
  - raises_np; [|destruct tr; raises_np].
    destruct m; cbn [literal]; decide_is; raises_np.
  - destruct m; cbn [literal]; decide_is; raises_np.
Qed.

Lemma accepted_mode_only_fails_in_numpy_witness :
  may_raise (fun x => numpy_error x /\ ~ UnsupportedMetric x /\ ~ InputMismatch x)
            (compute_sync no_statistic no_statistic
                          (Nd [2; 3; 4]%nat (fun _ => c_of 1 0))
                          (lit (literal Plv)) true true).
Proof.
  apply (@accepted_mode_only_fails_in_numpy no_statistic no_statistic
           (Nd [2; 3; 4]%nat (fun _ => c_of 1 0)) Plv true true).
  unfold ndim. simpl. lia.
Defined.

(** ** How much work a call does *)









(** ** One epoch *)

Lemma long_sequence_one_epoch (cs : ndarray complex) (Ch Fq S s c f : nat) :
  shape cs = [2; 1; Ch; Fq; S]%nat ->
  long_sequence cs s c f = row cs [s; 0; c; f]%nat.
Proof.
  intros Hs. unfold long_sequence. rewrite Hs. cbn [nth range seq flat_map].
  apply app_nil_r.
Qed.

(** With a single epoch, concatenating changes nothing: every entry
    (f, i, j) of the concatenated result is the entry (f, 0, i, j) of the
    per-epoch result. *)
Theorem concatenated_equals_per_epoch_for_one_epoch
        (np_corrcoef01 circcorrcoef : list npfloat -> list npfloat -> npfloat)
        (cs : ndarray complex) (mode : str) (m : metric_name)
        (Ch Fq S : nat) (tr : bool) :
  shape cs = [2; 1; Ch; Fq; S]%nat ->
  selects mode m ->
  exists concatenated_result per_epoch_result,
    returns (compute_sync np_corrcoef01 circcorrcoef cs mode false tr)
            concatenated_result
    /\ returns (compute_sync np_corrcoef01 circcorrcoef cs mode true false)
               per_epoch_result
    /\ forall f i j, (f < Fq)%nat -> (i < Ch)%nat -> (j < Ch)%nat ->
         item concatenated_result [f; i; j]%nat
         = item per_epoch_result [f; 0; i; j]%nat.
Proof.
  intros Hs Hm. apply is_lit in Hm. subst mode.
  exists (concatenated_array np_corrcoef01 circcorrcoef m cs Fq Ch),
         (per_epoch_array np_corrcoef01 circcorrcoef m cs Fq 1 Ch).
  split; [|split].
  - apply concatenated_returns with (E := 1%nat) (S := S); [exact Hs|lia].
  - apply (per_epoch_returns np_corrcoef01 circcorrcoef m cs Hs).
  - intros f i j Hf Hi Hj.
    rewrite (concatenated_array_item np_corrcoef01 circcorrcoef m cs Hs) by assumption.
    rewrite per_epoch_array_item by (assumption || lia).
    rewrite !(long_sequence_one_epoch cs _ _ _ Hs). reflexivity.
Qed.

Lemma concatenated_equals_per_epoch_for_one_epoch_witness :
  exists concatenated_result per_epoch_result,
    returns (compute_sync no_statistic no_statistic two_channel_signal
                          (lit "plv") false true) concatenated_result
    /\ returns (compute_sync no_statistic no_statistic two_channel_signal
                             (lit "plv") true false) per_epoch_result
    /\ forall f i j, (f < 1)%nat -> (i < 2)%nat -> (j < 2)%nat ->
         item concatenated_result [f; i; j]%nat
         = item per_epoch_result [f; 0; i; j]%nat.
Proof.
  apply (@concatenated_equals_per_epoch_for_one_epoch no_statistic no_statistic
           two_channel_signal (lit "plv") Plv 2 1 1 true); reflexivity.
Defined.

(** ** Imaginary coherence is symmetric *)

Lemma cosh_neg (x : R) : cosh (- x) = cosh x.
Proof. unfold cosh. rewrite Ropp_involutive. f_equal. ring. Qed.

Lemma sinh_neg (x : R) : sinh (- x) = - sinh x.
Proof. unfold sinh. rewrite Ropp_involutive. field. Qed.

Lemma icoh_instant_nan_l (x y : complex) :
  re x = NaN \/ im x = NaN -> icoh_instant x y = NaN.
Proof.
  intros Hx. destruct x as [[a|] [b|]];
    try (destruct Hx as [Hx|Hx]; discriminate Hx); reflexivity.
Qed.

Lemma icoh_instant_nan_r (x y : complex) :
  re y = NaN \/ im y = NaN -> icoh_instant x y = NaN.
Proof.
  intros Hy.
  assert (Habs : c_abs y = NaN /\ c_div_real y (c_abs y) = c_nan).
  { destruct y as [[c|] [d|]];
      try (destruct Hy as [Hy|Hy]; discriminate Hy); split; reflexivity. }
  destruct Habs as [Habs Hph]. unfold icoh_instant. rewrite Hph, Habs.
  rewrite c_sub_nan_r.
  change (c_sin c_nan) with c_nan.
  rewrite c_scale_nan. reflexivity.
Qed.

(** What [_icoh] computes at an instant with two non-zero samples: the
    modulus of the complex sine of the difference of the unit phasors. *)
Lemma icoh_instant_closed (a b c d : R) :
  a * a + b * b <> 0 -> c * c + d * d <> 0 ->
  icoh_instant (c_of a b) (c_of c d)
  = let alpha := a / sqrt (a * a + b * b) - c / sqrt (c * c + d * d) in
    let beta := b / sqrt (a * a + b * b) - d / sqrt (c * c + d * d) in
    Num (sqrt (sin alpha * cosh beta * (sin alpha * cosh beta)
               + cos alpha * sinh beta * (cos alpha * sinh beta))).
Proof.
  intros Hx Hy.
  pose proof (modulus_positive Hx) as Hrx. pose proof (modulus_positive Hy) as Hry.
  unfold icoh_instant. rewrite !c_abs_of.
  set (rx := sqrt (a * a + b * b)) in *. set (ry := sqrt (c * c + d * d)) in *.
  rewrite !c_div_real_num by lra.
  unfold c_sub, c_sin. cbn [re im c_of f_sub f_lift2].
  set (alpha := a / rx - c / ry). set (beta := b / rx - d / ry).
  unfold f_sq, f_mul. cbn [f_lift2]. unfold c_scale. cbn [re im c_of].
  replace (rx * rx * (ry * ry)) with (rx * ry * (rx * ry)) by ring.
  assert (Hprod : 0 < rx * ry) by (apply Rmult_lt_0_compat; assumption).
  rewrite f_sqrt_num by nra. rewrite sqrt_square by lra.
  rewrite c_div_real_num by lra.
  replace (rx * ry * (sin alpha * cosh beta) / (rx * ry))
    with (sin alpha * cosh beta) by (field; lra).
  replace (rx * ry * (cos alpha * sinh beta) / (rx * ry))
    with (cos alpha * sinh beta) by (field; lra).
  apply c_abs_of.
Qed.

Lemma icoh_instant_sym (x y : complex) : icoh_instant x y = icoh_instant y x.
Proof.
  destruct x as [[a|] [b|]];
    try solve [rewrite icoh_instant_nan_l, icoh_instant_nan_r;
               [reflexivity|simpl; auto; fail|simpl; auto; fail]].
  destruct y as [[c|] [d|]];
    try solve [rewrite icoh_instant_nan_r, icoh_instant_nan_l;
               [reflexivity|simpl; auto; fail|simpl; auto; fail]].
  change (Cx (Num a) (Num b)) with (c_of a b).
  change (Cx (Num c) (Num d)) with (c_of c d).
  destruct (Req_dec_T (a * a + b * b) 0) as [Hzx|Hnx].
  { destruct (zero_sample Hzx) as [-> ->].
    rewrite icoh_instant_zero_l, icoh_instant_zero_r. reflexivity. }
  destruct (Req_dec_T (c * c + d * d) 0) as [Hzy|Hny].
  { destruct (zero_sample Hzy) as [-> ->].
    rewrite icoh_instant_zero_l, icoh_instant_zero_r. reflexivity. }
  rewrite !icoh_instant_closed by assumption. cbv zeta.
  set (rx := sqrt (a * a + b * b)). set (ry := sqrt (c * c + d * d)).
  replace (c / ry - a / rx) with (- (a / rx - c / ry)) by ring.
  replace (d / ry - b / rx) with (- (b / rx - d / ry)) by ring.
  rewrite sin_neg, cos_neg, cosh_neg, sinh_neg.
  f_equal. f_equal. ring.
Qed.

Lemma vec2_swap {A B C} (f : A -> B -> C) (g : B -> A -> C)
      (X : list A) (Y : list B) :
  (forall x y, f x y = g y x) -> vec2 f X Y = vec2 g Y X.
Proof.
  intros Hfg. revert Y. induction X as [|x X IH]; intros [|y Y]; try reflexivity.
  rewrite !vec2_cons, Hfg, IH. reflexivity.
Qed.

(** Imaginary coherence does not depend on the order of the two
    sequences, whatever their samples: zero samples and [nan] included. *)
Theorem imaginary_coherence_is_symmetric (X Y : list complex) :
  List.length X = List.length Y ->
  _icoh X Y = _icoh Y X.
Proof.
  intros _. rewrite !icoh_pointwise. f_equal.
  apply vec2_swap. intros x y. apply icoh_instant_sym.
Qed.

Lemma imaginary_coherence_is_symmetric_witness :
  _icoh [c_of 0 1; c_of 0 0] [c_of 1 0; c_of 2 1]
  = _icoh [c_of 1 0; c_of 2 1] [c_of 0 1; c_of 0 0].
Proof.
  apply (@imaginary_coherence_is_symmetric
           [c_of 0 1; c_of 0 0] [c_of 1 0; c_of 2 1]).
  reflexivity.
Defined.

Lemma f_add_comm (a b : npfloat) : f_add a b = f_add b a.
Proof.
  destruct a as [x|], b as [y|]; try reflexivity.
  unfold f_add, f_lift2. rewrite Rplus_comm. reflexivity.
Qed.

(** Projected power correlation does not depend on the order of the two
    sequences either: the two projections trade places in a sum. *)
Theorem projected_power_correlation_is_symmetric (X Y : list complex) :
  List.length X = List.length Y ->
  _proj_power_corr X Y = _proj_power_corr Y X.
Proof.
  intros _. unfold _proj_power_corr. cbv zeta.
  rewrite f_add_comm. reflexivity.
Qed.

Lemma projected_power_correlation_is_symmetric_witness :
  _proj_power_corr [c_of 0 1; c_of 3 0] [c_of 1 0; c_of 2 1]
  = _proj_power_corr [c_of 1 0; c_of 2 1] [c_of 0 1; c_of 3 0].
Proof.
  apply (@projected_power_correlation_is_symmetric
           [c_of 0 1; c_of 3 0] [c_of 1 0; c_of 2 1]).
  reflexivity.
Defined.

(** ** What the discrete path hands to the decomposition *)

Lemma np_arange_nth (lo hi : Z) (k : nat) :
  (k < Z.to_nat (hi - lo))%nat ->
  nth_error (np_arange lo hi) k = Some (lo + Z.of_nat k)%Z.
Proof.
  intros Hk. unfold np_arange.
  exact (nth_error_map_range (fun k => (lo + Z.of_nat k)%Z) Hk).
Qed.

(** The discrete path calls the decomposition once per subject, on that
    subject's recording, with the number of samples per epoch as the
    sampling rate and the integers f0, f0+1, ..., f1-1 as frequencies; the
    analytic signal is the two answers stacked, subject 0 first. *)
Theorem discrete_path_stacks_the_decompositions
        (tfr_array_multitaper :
           ndarray npfloat -> nat -> list Z -> string + ndarray complex)
        (d0 d1 : ndarray npfloat) (n_samp : nat) (f0 f1 : Z)
        (y0 y1 : ndarray complex) :
  nth_error (shape d0) 2 = Some n_samp ->
  tfr_array_multitaper d0 n_samp (np_arange f0 f1) = inr y0 ->
  tfr_array_multitaper d1 n_samp (np_arange f0 f1) = inr y1 ->
  shape y0 = shape y1 ->
  (forall k, (k < Z.to_nat (f1 - f0))%nat ->
             nth_error (np_arange f0 f1) k = Some (f0 + Z.of_nat k)%Z)
  /\ exists cs,
      compute_single_freq tfr_array_multitaper (d0, d1) [f0; f1]
      = ([Decomposition "tfr_array_multitaper"; Decomposition "tfr_array_multitaper"],
         inr cs)
      /\ shape cs = 2%nat :: shape y0
      /\ (forall idx, item cs (0%nat :: idx) = item y0 idx)
      /\ (forall idx, item cs (1%nat :: idx) = item y1 idx).
Proof.
  intros Hsamp H0 H1 Hshape. split; [intros k Hk; apply np_arange_nth; exact Hk|].
  exists (stacked y0 [y0; y1]). split; [|split; [|split]]; try reflexivity.
  unfold compute_single_freq, shape_at. cbn [subject fst snd].
  rewrite Hsamp, bind_ret.
  cbn [range seq for_ subject fst snd py_index nth_error]. rewrite !bind_ret.
  rewrite H0, H1. cbn [call tick bind ret app].
  unfold np_stack. cbn [forallb]. rewrite <- Hshape.
  destruct (list_eq_dec Nat.eq_dec (shape y0) (shape y0)) as [_|Hne];
    [|contradiction].
  reflexivity.
Qed.

Lemma discrete_path_stacks_the_decompositions_witness :
  exists cs,
    compute_single_freq tfr_zero (recording 1 2 3 0, recording 1 2 3 0) [8; 10]%Z
    = ([Decomposition "tfr_array_multitaper"; Decomposition "tfr_array_multitaper"],
       inr cs)
    /\ shape cs = [2; 1; 2; 2; 3]%nat.
Proof.
  destruct (@discrete_path_stacks_the_decompositions
              tfr_zero (recording 1 2 3 0) (recording 1 2 3 0) 3 8%Z 10%Z
              (Nd [1; 2; 2; 3]%nat (fun _ => c_of 0 0))
              (Nd [1; 2; 2; 3]%nat (fun _ => c_of 0 0))
              eq_refl eq_refl eq_refl eq_refl)
    as [_ [cs [Hcs [Hshape _]]]].
  exists cs. split; [exact Hcs|exact Hshape].
Defined.

(** ** Which collaborators a call reaches *)

Lemma only_events_ret {A} (P : event -> Prop) (a : A) : only_events P (ret a).
Proof. constructor. Qed.

Lemma only_events_raise {A} (P : event -> Prop) (e : exn) :
  only_events P (@raise A e).
Proof. constructor. Qed.

Lemma only_events_tick (P : event -> Prop) (ev : event) :
  P ev -> only_events P (tick ev).
Proof. intros Hev. constructor; [exact Hev|constructor]. Qed.

Lemma only_events_bind {A B} (P : event -> Prop) (m : M A) (k : A -> M B) :
  only_events P m -> (forall a, only_events P (k a)) -> only_events P (bind m k).
Proof.
  unfold only_events, work. destruct m as [l [e|a]]; simpl; intros Hm Hk.
  - exact Hm.
  - specialize (Hk a). destruct (k a) as [l' r]. simpl in *.
    apply Forall_app. split; assumption.
Qed.

Lemma only_events_for {A B} (P : event -> Prop) (l : list A) (f : A -> M B) :
  (forall x, only_events P (f x)) -> only_events P (for_ l f).
Proof.
  intros Hf. induction l as [|x l IH]; simpl.
  - apply only_events_ret.
  - apply only_events_bind; [apply Hf|]. intros b.
    apply only_events_bind; [exact IH|]. intros bs. apply only_events_ret.
Qed.

Lemma only_events_call {A} (P : event -> Prop) (name : string) (r : string + A) :
  P (Decomposition name) -> only_events P (call name r).
Proof.
  intros HP. unfold call. apply only_events_bind; [apply only_events_tick; exact HP|].
  intros _. destruct r; [apply only_events_raise|apply only_events_ret].
Qed.

Lemma only_events_weaken {A} (P Q : event -> Prop) (m : M A) :
  (forall ev, P ev -> Q ev) -> only_events P m -> only_events Q m.
Proof. intros HPQ Hm. eapply Forall_impl; [exact HPQ|exact Hm]. Qed.

Ltac events :=
  repeat first
         [ apply only_events_ret
         | apply only_events_raise
         | (apply only_events_tick; exact I)
         | (apply only_events_bind; [|intro])
         | (apply only_events_for; intro) ].

Section InHouse.

Context {V : Type} `{Dflt V}.

Lemma shape_at_in_house (P : event -> Prop) (a : ndarray V) (k : nat) :
  only_events P (shape_at a k).
Proof. unfold shape_at. destruct (nth_error (shape a) k); events. Qed.

Lemma np_row_in_house (P : event -> Prop) (a : ndarray V) (idx : list nat) :
  only_events P (np_row a idx).
Proof. unfold np_row. destruct (_ && _); events. Qed.

Lemma np_index0_in_house (P : event -> Prop) (a : ndarray V) (i : nat) :
  only_events P (np_index0 a i).
Proof.
  unfold np_index0. destruct (shape a) as [|d sh]; [events|].
  destruct (i <? d)%nat; events.
Qed.

Lemma np_stack_in_house (P : event -> Prop) (l : list (ndarray V)) :
  only_events P (np_stack l).
Proof.
  unfold np_stack. destruct l as [|a l]; [events|].
  destruct (forallb _ _); events.
Qed.

Lemma np_moveaxis_in_house (P : event -> Prop) (a : ndarray V) :
  only_events P (np_moveaxis_0_3 a).
Proof. unfold np_moveaxis_0_3. destruct (4 <=? ndim a)%nat; events. Qed.

Lemma np_concatenate_in_house (l : list (ndarray V)) :
  only_events in_house (np_concatenate_axis2 l).
Proof.
  unfold np_concatenate_axis2. destruct l as [|a l]; [events|].
  destruct (ndim a =? 3)%nat; events.
Qed.

Lemma strands_of_in_house (values : ndarray V) :
  only_events in_house (strands_of values).
Proof.
  unfold strands_of. events;
    first [apply np_index0_in_house | apply np_concatenate_in_house
          | apply np_stack_in_house].
Qed.

End InHouse.

Lemma py_index_in_house {A} (P : event -> Prop) (l : list A) (k : nat) :
  only_events P (py_index l k).
Proof. unfold py_index. destruct (nth_error l k); events. Qed.

Lemma assert_in_house (P : event -> Prop) (c : bool) (line : nat) (msg : string) :
  only_events P (assert_ c line msg).
Proof. unfold assert_. destruct c; events. Qed.

(** The engine calls no collaborator: all it does is transform,
    concatenate, evaluate metrics and reduce. *)
Lemma compute_sync_in_house
      (np_corrcoef01 circcorrcoef : list npfloat -> list npfloat -> npfloat)
      (cs : ndarray complex) (mode : str) (ew tr : bool) :
  only_events in_house (compute_sync np_corrcoef01 circcorrcoef cs mode ew tr).
Proof.
  assert (Hgrid4 : forall V (metric : list V -> list V -> npfloat) values a b c,
             only_events in_house (per_epoch_grid metric values a b c)).
  { intros. unfold per_epoch_grid.
    apply only_events_bind; [|intro; apply only_events_ret].
    do 4 (apply only_events_for; intro).
    apply only_events_bind; [apply np_row_in_house|intro].
    apply only_events_bind; [apply np_row_in_house|intro].
    apply only_events_bind; [apply only_events_tick; exact I|intro].
    apply only_events_ret. }
  assert (Hgrid3 : forall V (metric : list V -> list V -> npfloat) values a b,
             only_events in_house (concat_grid metric values a b)).
  { intros. unfold concat_grid.
    apply only_events_bind; [|intro; apply only_events_ret].
    do 3 (apply only_events_for; intro).
    apply only_events_bind; [apply np_row_in_house|intro].
    apply only_events_bind; [apply np_row_in_house|intro].
    apply only_events_bind; [apply only_events_tick; exact I|intro].
    apply only_events_ret. }
  assert (Hpre : forall V W (f : V -> W) a, only_events in_house (pre f a)).
  { intros. unfold pre.
    apply only_events_bind; [apply only_events_tick; exact I|intro].
    apply only_events_ret. }
  assert (Hmean : forall a, only_events in_house (np_nanmean_axis1 a)).
  { intros. unfold np_nanmean_axis1.
    destruct (shape a) as [|d0 [|d1 rest]]; try apply only_events_raise.
    apply only_events_bind; [apply only_events_tick; exact I|intro].
    apply only_events_ret. }
  unfold compute_sync.
  do 4 (apply only_events_bind; [apply shape_at_in_house|intro]).
  destruct ew.
  - apply only_events_bind;
      [|intro; destruct tr; [apply Hmean|apply only_events_ret]].
    repeat match goal with
           | |- context [if ?b then _ else _] => destruct b
           end;
      repeat first [ apply Hpre | apply Hgrid4 | apply only_events_raise
                   | (apply only_events_bind; [|intro]) ].
  - repeat match goal with
           | |- context [if ?b then _ else _] => destruct b
           end;
      repeat first [ apply Hpre | apply Hgrid3 | apply strands_of_in_house
                   | apply only_events_raise
                   | (apply only_events_bind; [|intro]) ].
Qed.

(** The facade keeps the two paths apart: with a list of frequencies the
    filter and the Hilbert transform are never called, with a mapping of
    bands the multitaper decomposition is never called, and with anything
    else no collaborator is called at all; this holds whether the call
    returns or raises. *)
Theorem facade_reaches_one_path
        (tfr_array_multitaper :
           ndarray npfloat -> nat -> list Z -> string + ndarray complex)
        (filter_data : ndarray npfloat -> nat -> Z -> Z -> string + ndarray npfloat)
        (hilbert : ndarray npfloat -> string + ndarray complex)
        (np_corrcoef01 circcorrcoef : list npfloat -> list npfloat -> npfloat)
        (data : dyad) (frequencies : obj) (mode : str) (ew tr : bool) :
  only_events
    (fun ev =>
       match frequencies with
       | PyList _ => not_call_of "filter_data" ev /\ not_call_of "hilbert" ev
       | PyDict _ => not_call_of "tfr_array_multitaper" ev
       | _ => in_house ev
       end)
    (simple_corr tfr_array_multitaper filter_data hilbert np_corrcoef01
                 circcorrcoef data frequencies mode ew tr).
Proof.
  assert (Hweak : forall (P : event -> Prop),
             (forall ev, in_house ev -> P ev) ->
             forall v, only_events P (compute_sync np_corrcoef01 circcorrcoef v mode ew tr)).
  { intros P HP v. eapply only_events_weaken; [exact HP|apply compute_sync_in_house]. }
  unfold simple_corr.
  apply only_events_bind; [apply shape_at_in_house|intro e0].
  apply only_events_bind; [apply shape_at_in_house|intro e1].
  apply only_events_bind; [apply assert_in_house|intros _].
  destruct frequencies as [l|d|l| |name].
  - apply only_events_bind.
    + apply only_events_bind; [|intro; apply only_events_ret].
      unfold compute_single_freq.
      apply only_events_bind; [apply shape_at_in_house|intro n_samp].
      apply only_events_bind; [|intro; apply np_stack_in_house].
      apply only_events_for. intro s.
      apply only_events_bind; [apply py_index_in_house|intro lo].
      apply only_events_bind; [apply py_index_in_house|intro hi].
      apply only_events_call. split; discriminate.
    + intros [v|]; [|apply only_events_raise].
      apply Hweak. intros ev Hev. destruct ev; simpl in *; tauto.
  - apply only_events_bind.
    + apply only_events_bind; [|intro; apply only_events_ret].
      unfold compute_freq_bands.
      apply only_events_bind; [apply shape_at_in_house|intro].
      apply only_events_bind; [apply shape_at_in_house|intro].
      apply only_events_bind; [apply assert_in_house|intros _].
      apply only_events_bind; [apply shape_at_in_house|intro].
      apply only_events_bind; [apply shape_at_in_house|intro].
      apply only_events_bind; [apply shape_at_in_house|intro].
      apply only_events_bind; [apply np_stack_in_house|intro data'].
      apply only_events_bind.
      { apply only_events_for. intro band. unfold band_signal.
        apply only_events_bind.
        - apply only_events_for. intro s.
          apply only_events_bind; [apply np_index0_in_house|intro].
          apply only_events_bind; [apply py_index_in_house|intro].
          apply only_events_bind; [apply py_index_in_house|intro].
          apply only_events_call. discriminate.
        - intro. apply only_events_bind; [apply np_stack_in_house|intro].
          apply only_events_call. discriminate. }
      intro. apply only_events_bind; [apply np_stack_in_house|intro].
      apply only_events_bind; [apply np_moveaxis_in_house|intro].
      apply only_events_bind; [apply assert_in_house|intro].
      apply only_events_ret.
    + intros [v|]; [|apply only_events_raise].
      apply Hweak. intros ev Hev. destruct ev; simpl in *; tauto.
  - apply only_events_bind; [apply only_events_ret|].
    intros [v|]; [|apply only_events_raise]. apply Hweak. trivial.
  - apply only_events_bind; [apply only_events_ret|].
    intros [v|]; [|apply only_events_raise]. apply Hweak. trivial.
  - apply only_events_bind; [apply only_events_ret|].
    intros [v|]; [|apply only_events_raise]. apply Hweak. trivial.
Qed.
